(** * wf-eval: adaptive inline packet dropper

    A shallow embedding of [src/ebpf/packet_dropper.bpf.c] (the per-packet
    traffic-control classifier) and of [src/ebpf/loader.c] (argument
    validation, attachment, and the fixed / dynamic control loops), followed
    by the properties of the design document that concern them.

    Conventions.
    - [__u64], [__u32] and [long] are integers in [Z]; every C operation that
      can leave the range has its wrap-around written out ([u64], [u32],
      [long]).
    - [double] is IEEE 754 binary64, given by the Standard Library's
      executable specification [SpecFloat] at precision 53 and [emax] 1024.
    - [state_map] is the one-entry BPF array map, a list indexed by the key.
    - Calls into libbpf, libc and the kernel are inputs (their return values)
      and outputs (a trace of events). *)

From Stdlib Require Import ZArith Lia Bool List Ascii String.
From Stdlib Require Import Floats.SpecFloat.
From stdpp Require Import base list.

Open Scope Z_scope.

(* ===================================================================== *)
(** ** Machine integers *)

Definition u64 (z : Z) : Z := z mod 2 ^ 64.
Definition u32 (z : Z) : Z := z mod 2 ^ 32.

(** Two's-complement [long] (64 bits). *)
Definition long (z : Z) : Z := (z + 2 ^ 63) mod 2 ^ 64 - 2 ^ 63.

Definition is_u64 (z : Z) : Prop := 0 <= z < 2 ^ 64.
Definition is_u32 (z : Z) : Prop := 0 <= z < 2 ^ 32.
Definition is_long (z : Z) : Prop := - 2 ^ 63 <= z < 2 ^ 63.

(* ===================================================================== *)
(** ** C [double] *)

Module Double.

Definition prec : Z := 53.
Definition emax : Z := 1024.

Definition double : Type := spec_float.

(** Conversion of an integer to [double] (round to nearest, ties to even). *)
Definition of_Z (z : Z) : double := binary_normalize prec emax z 0 false.

Definition mul (x y : double) : double := SFmul prec emax x y.
Definition div (x y : double) : double := SFdiv prec emax x y.
Definition sub (x y : double) : double := SFsub prec emax x y.

(** [x > y] and [x >= y]; both are false when an operand is NaN. *)
Definition gt (x y : double) : bool := SFltb y x.
Definition ge (x y : double) : bool := SFleb y x.

(** The integral part of a finite double, fraction discarded. *)
Definition trunc (s : bool) (m : positive) (e : Z) : Z :=
  let n := match e with
           | Z0 => Zpos m
           | Zpos _ => Zpos m * 2 ^ e
           | Zneg p => Zpos m / 2 ^ Zpos p
           end in
  if s then - n else n.

(** The cast [(__u32) x].  C defines it only when the integral part of [x]
    is representable in [__u32]; [None] stands for the undefined cases
    (NaN, infinities, integral part negative or above [2^32 - 1]). *)
Definition to_u32 (x : double) : option Z :=
  match x with
  | S754_zero _ => Some 0
  | S754_finite s m e =>
      let n := trunc s m e in
      if (0 <=? n) && (n <? 2 ^ 32) then Some n else None
  | S754_infinity _ | S754_nan => None
  end.

End Double.

(* ===================================================================== *)
(** ** The shared record and its map *)

(** [struct state], declared identically in both source files. *)
Record state : Type := mk_state {
  packet_count : Z;       (* __u64 *)
  dropped_count : Z;      (* __u64 *)
  drop_probability : Z    (* __u32 *)
}.

Definition wf_state (s : state) : Prop :=
  is_u64 (packet_count s) /\ is_u64 (dropped_count s) /\
  is_u32 (drop_probability s).

Definition set_packet_count (v : Z) (s : state) : state :=
  mk_state v (dropped_count s) (drop_probability s).
Definition set_dropped_count (v : Z) (s : state) : state :=
  mk_state (packet_count s) v (drop_probability s).
Definition set_drop_probability (v : Z) (s : state) : state :=
  mk_state (packet_count s) (dropped_count s) v.

(** [state_map]: [BPF_MAP_TYPE_ARRAY], values of type [struct state]. *)
Definition state_map : Type := list state.

(** The only key either program uses: [__u32 key = 0]. *)
Definition key : nat := 0%nat.

(** The map as packet_dropper.bpf.c declares it: [max_entries] is 1, so it
    holds exactly the entry of key 0. *)
Definition declared (m : state_map) : Prop := length m = 1%nat.

(** The map as the kernel creates it: zero-filled. *)
Definition fresh_map : state_map := [mk_state 0 0 0].

(* ===================================================================== *)
(** ** packet_dropper.bpf.c *)

Module Filter.

(** Verdicts of [linux/pkt_cls.h]. *)
Definition TC_ACT_OK : Z := 0.
Definition TC_ACT_SHOT : Z := 2.

(** One record on the trace pipe: [bpf_printk] with direction and
    probability. *)
Record printk : Type := mk_printk { pk_direction : Z; pk_probability : Z }.

(** [handle_packet].  [prandom] is the value [bpf_get_prandom_u32()] returns
    in this invocation.  The pointer [s] aliases the map entry, so each
    [__sync_fetch_and_add] is an update of the entry itself. *)
Definition handle_packet (m : state_map) (prandom direction : Z)
  : Z * state_map * list printk :=
  match m !! key with
  | None => (TC_ACT_OK, m, [])
  | Some s =>
      let s1 := set_packet_count (u64 (packet_count s + 1)) s in
      if u32 prandom mod 100 <? drop_probability s1 then
        let s2 := set_dropped_count (u64 (dropped_count s1 + 1)) s1 in
        (TC_ACT_SHOT, <[key := s2]> m,
         [mk_printk direction (drop_probability s2)])
      else (TC_ACT_OK, <[key := s1]> m, [])
  end.

Definition handle_ingress (m : state_map) (prandom : Z) :=
  handle_packet m prandom 1.
Definition handle_egress (m : state_map) (prandom : Z) :=
  handle_packet m prandom 2.

Definition verdict (r : Z * state_map * list printk) : Z := fst (fst r).
Definition map_after (r : Z * state_map * list printk) : state_map :=
  snd (fst r).

End Filter.

(* ===================================================================== *)
(** ** loader.c *)

Module Loader.

Definition DEFAULT_MIN_RATE_PPS : Z := 1000.
Definition DEFAULT_MAX_RATE_PPS : Z := 100000.
Definition DEFAULT_MAX_PROBABILITY : Z := 50.
Definition UPDATE_INTERVAL_SEC : Z := 1.

(** [errno.h] *)
Definition EEXIST : Z := 17.

Inductive operating_mode : Type := MODE_DYNAMIC | MODE_FIXED.

(** *** What the process does to the outside world *)

Inductive message : Type :=
| msg_invalid_mode (arg : string)
| msg_usage
| msg_mode_required
| msg_prob_required
| msg_prob_range
| msg_max_prob_range
| msg_interface_required
| msg_perror_if_nametoindex
| msg_finding_programs
| msg_hook_create (err : Z)
| msg_attach_ingress (err : Z)
| msg_attach_egress (err : Z)
| msg_finding_map
| msg_fixed_update.

Inductive event : Type :=
| ev_stderr (msg : message)
| ev_if_nametoindex (ifname : string)
| ev_object_open
| ev_object_load
| ev_object_close
| ev_hook_create (ifindex : Z)
| ev_attach_ingress (ifindex : Z)
| ev_attach_egress (ifindex : Z)
| ev_hook_destroy (ifindex : Z)
| ev_signal (signo : string)
| ev_map_update (value : state).

(** A run of straight-line code: the events it emitted, and either the exit
    status with which the process ended or the value it produced. *)
Definition proc (A : Type) : Type := list event * (Z + A).

Definition ret {A : Type} (a : A) : proc A := ([], inr a).

Definition bind {A B : Type} (c : proc A) (k : A -> proc B) : proc B :=
  match c with
  | (t, inl code) => (t, inl code)
  | (t, inr a) => let '(t', r) := k a in (t ++ t', r)
  end.

Definition emit (e : event) : proc unit := ([e], inr tt).

(** [return code] from [main], or [exit(code)]. *)
Definition exit {A : Type} (code : Z) : proc A := ([], inl code).

Notation "x <- c ;; k" := (bind c (fun x => k))
  (at level 100, c at next level, k at level 200, only parsing).
Notation "c ;; k" := (bind c (fun _ => k))
  (at level 100, k at level 200, only parsing).

Definition fprintf (msg : message) : proc unit := emit (ev_stderr msg).
Definition usage : proc unit := fprintf msg_usage.

Definition trace {A : Type} (c : proc A) : list event := fst c.
Definition exit_status {A : Type} (c : proc A) : option Z :=
  match snd c with inl code => Some code | inr _ => None end.

(** [cleanup]: destroy the hook of [ifindex_g], then [exit(0)]. *)
Definition cleanup (ifindex_g : Z) : proc unit :=
  emit (ev_hook_destroy ifindex_g) ;; exit 0.

(** *** Command line *)

(** One return of [getopt_long]: the value returned, the name of the long
    option at [option_index], and [optarg]. *)
Record getopt_ret : Type := mk_getopt {
  opt : Z;
  long_name : string;
  optarg : string
}.

Definition chr (c : Ascii.ascii) : Z := Z.of_nat (Ascii.nat_of_ascii c).

(** The locals of [main] that the options set. *)
Record cli_vars : Type := mk_cli {
  mode : option operating_mode;   (* None: the initial -1 *)
  prob : Z;
  max_prob : Z;
  min_rate : Z;
  max_rate : Z
}.

Definition cli_init : cli_vars :=
  mk_cli None (-1) DEFAULT_MAX_PROBABILITY DEFAULT_MIN_RATE_PPS
         DEFAULT_MAX_RATE_PPS.

Definition set_mode (x : operating_mode) (v : cli_vars) : cli_vars :=
  mk_cli (Some x) (prob v) (max_prob v) (min_rate v) (max_rate v).
Definition set_prob (x : Z) (v : cli_vars) : cli_vars :=
  mk_cli (mode v) x (max_prob v) (min_rate v) (max_rate v).
Definition set_max_prob (x : Z) (v : cli_vars) : cli_vars :=
  mk_cli (mode v) (prob v) x (min_rate v) (max_rate v).
Definition set_min_rate (x : Z) (v : cli_vars) : cli_vars :=
  mk_cli (mode v) (prob v) (max_prob v) x (max_rate v).
Definition set_max_rate (x : Z) (v : cli_vars) : cli_vars :=
  mk_cli (mode v) (prob v) (max_prob v) (min_rate v) x.

Section CommandLine.

(** libc's [atol]. *)
Variable atol : string -> Z.

(** The [while ((opt = getopt_long(...)) != -1)] loop over the successive
    returns of [getopt_long]; the end of the list is the return of -1. *)
Fixpoint getopt_loop (rets : list getopt_ret) (v : cli_vars) : proc cli_vars :=
  match rets with
  | [] => ret v
  | o :: rest =>
      if opt o =? 0 then
        if String.eqb "mode" (long_name o) then
          if String.eqb "dynamic" (optarg o) then
            getopt_loop rest (set_mode MODE_DYNAMIC v)
          else if String.eqb "fixed" (optarg o) then
            getopt_loop rest (set_mode MODE_FIXED v)
          else
            fprintf (msg_invalid_mode (optarg o)) ;; usage ;; exit 1
        else getopt_loop rest v
      else if opt o =? chr "p"%char then
        getopt_loop rest (set_prob (atol (optarg o)) v)
      else if opt o =? chr "P"%char then
        getopt_loop rest (set_max_prob (atol (optarg o)) v)
      else if opt o =? chr "m"%char then
        getopt_loop rest (set_min_rate (atol (optarg o)) v)
      else if opt o =? chr "M"%char then
        getopt_loop rest (set_max_rate (atol (optarg o)) v)
      else usage ;; exit 1
  end.

(** The checks between the option loop and [if_nametoindex]. [ifname] is
    [argv[optind]], absent when [optind >= argc]. *)
Definition validate (v : cli_vars) (ifname : option string)
  : proc (operating_mode * string) :=
  match mode v with
  | None => fprintf msg_mode_required ;; usage ;; exit 1
  | Some md =>
      (match md with
       | MODE_FIXED =>
           if prob v =? -1 then fprintf msg_prob_required ;; usage ;; exit 1
           else if (prob v <? 0) || (100 <? prob v)
                then fprintf msg_prob_range ;; exit 1
                else ret tt
       | MODE_DYNAMIC =>
           if (max_prob v <? 0) || (100 <? max_prob v)
           then fprintf msg_max_prob_range ;; exit 1
           else ret tt
       end) ;;
      match ifname with
      | None => fprintf msg_interface_required ;; usage ;; exit 1
      | Some name => ret (md, name)
      end
  end.

End CommandLine.

(** *** Attachment *)

(** What libc, libbpf and the kernel answer during start-up. *)
Record startup_io : Type := mk_startup {
  if_nametoindex : Z;          (* 0: no such interface *)
  open_error : bool;           (* libbpf_get_error(bpf_obj) *)
  load_ret : Z;                (* bpf_object__load *)
  ing_prog : bool;             (* handle_ingress found *)
  eg_prog : bool;              (* handle_egress found *)
  hook_create_ret : Z;         (* bpf_tc_hook_create *)
  attach_ingress_ret : Z;      (* bpf_tc_attach, ingress *)
  attach_egress_ret : Z;       (* bpf_tc_attach, egress *)
  map_fd : Z;                  (* bpf_object__find_map_fd_by_name *)
  map_at_write : state_map;    (* state_map when the fixed-mode write runs *)
  fixed_update_ok : bool;      (* bpf_map_update_elem returned 0 *)
  start_time_ns : Z            (* get_time_ns() before the dynamic loop *)
}.

(** User-space [bpf_map_lookup_elem]: a copy of the entry, or failure of the
    system call. *)
Definition bpf_map_lookup_elem (ok : bool) (m : state_map) (k : nat)
  : option state :=
  if ok then m !! k else None.

(** User-space [bpf_map_update_elem]: the whole value is replaced. *)
Definition bpf_map_update_elem (ok : bool) (m : state_map) (k : nat)
  (value : state) : state_map :=
  if ok then <[k := value]> m else m.

Definition attach (io : startup_io) (ifname : string) : proc Z :=
  emit (ev_if_nametoindex ifname) ;;
  let ifindex_g := if_nametoindex io in
  (if ifindex_g =? 0 then fprintf msg_perror_if_nametoindex ;; exit 1
   else ret tt) ;;
  emit ev_object_open ;;
  (if open_error io then exit 1 else ret tt) ;;
  emit ev_object_load ;;
  (if negb (load_ret io =? 0) then emit ev_object_close ;; exit 1
   else ret tt) ;;
  (if negb (ing_prog io) || negb (eg_prog io)
   then fprintf msg_finding_programs ;; emit ev_object_close ;; exit 1
   else ret tt) ;;
  emit (ev_hook_create ifindex_g) ;;
  (let err := hook_create_ret io in
   if negb (err =? 0) && negb (err =? - EEXIST)
   then fprintf (msg_hook_create err) ;; emit ev_object_close ;; exit 1
   else ret tt) ;;
  emit (ev_attach_ingress ifindex_g) ;;
  (let err := attach_ingress_ret io in
   if negb (err =? 0)
   then fprintf (msg_attach_ingress err) ;; cleanup ifindex_g ;; exit 1
   else ret tt) ;;
  emit (ev_attach_egress ifindex_g) ;;
  (let err := attach_egress_ret io in
   if negb (err =? 0)
   then fprintf (msg_attach_egress err) ;; cleanup ifindex_g ;; exit 1
   else ret tt) ;;
  (if map_fd io <? 0
   then fprintf msg_finding_map ;; cleanup ifindex_g ;; exit 1
   else ret tt) ;;
  emit (ev_signal "SIGINT") ;;
  emit (ev_signal "SIGTERM") ;;
  ret ifindex_g.

(** *** The two modes *)

Record baseline : Type := mk_baseline {
  last_time_ns : Z;        (* __u64 *)
  last_packet_count : Z    (* __u64 *)
}.

(** Where [main] stands when it has entered one of its endless loops. *)
Inductive running : Type :=
| fixed_idle (ifindex_g : Z) (m : state_map)
| dynamic_loop (ifindex_g : Z) (v : cli_vars) (b : baseline).

Definition fixed_state (v : cli_vars) : state :=
  mk_state 0 0 (u32 (prob v)).

Definition fixed_mode (io : startup_io) (ifindex_g : Z) (v : cli_vars)
  : proc running :=
  emit (ev_map_update (fixed_state v)) ;;
  if fixed_update_ok io && (key <? length (map_at_write io))%nat then
    ret (fixed_idle ifindex_g
           (bpf_map_update_elem true (map_at_write io) key (fixed_state v)))
  else fprintf msg_fixed_update ;; cleanup ifindex_g ;; exit 1.

Definition main (atol : string -> Z) (rets : list getopt_ret)
  (ifname : option string) (io : startup_io) : proc running :=
  v <- getopt_loop atol rets cli_init ;;
  mi <- validate v ifname ;;
  ifindex_g <- attach io (snd mi) ;;
  match fst mi with
  | MODE_FIXED => fixed_mode io ifindex_g v
  | MODE_DYNAMIC =>
      ret (dynamic_loop ifindex_g v (mk_baseline (start_time_ns io) 0))
  end.

(** The handler installed for SIGINT and SIGTERM. *)
Definition on_signal (r : running) : proc unit :=
  match r with
  | fixed_idle ifindex_g _ => cleanup ifindex_g
  | dynamic_loop ifindex_g _ _ => cleanup ifindex_g
  end.

(** *** One iteration of the dynamic loop *)

(** The literal [1e9]. *)
Definition billion : Double.double := Double.of_Z 1000000000.

(** [(double)count_diff * 1e9 / time_diff_ns] *)
Definition pps_of (count_diff time_diff_ns : Z) : Double.double :=
  Double.div (Double.mul (Double.of_Z count_diff) billion)
             (Double.of_Z time_diff_ns).

(** The linear branch, before the cast:
    [((pps - min_rate) / (max_rate - min_rate)) * max_prob]. *)
Definition scaled (v : cli_vars) (pps : Double.double) : Double.double :=
  Double.mul
    (Double.div (Double.sub pps (Double.of_Z (min_rate v)))
                (Double.of_Z (long (max_rate v - min_rate v))))
    (Double.of_Z (max_prob v)).

(** The value of [new_prob] at the end of lines 216-220; [None] when the
    cast of line 219 is undefined. *)
Definition new_prob (v : cli_vars) (pps : Double.double) : option Z :=
  if Double.gt pps (Double.of_Z (min_rate v)) then
    if Double.ge pps (Double.of_Z (max_rate v)) then Some (u32 (max_prob v))
    else Double.to_u32 (scaled v pps)
  else Some 0.

(** What the environment answers during one iteration. *)
Record tick_io : Type := mk_tick {
  lookup_ok : bool;     (* bpf_map_lookup_elem returned 0 *)
  now_ns : Z;           (* get_time_ns(), a __u64 *)
  update_ok : bool      (* bpf_map_update_elem returned 0 *)
}.

(** Lines 210-221 on the copy [current_state] read by the lookup: the new
    baseline and the record handed to [bpf_map_update_elem]. *)
Definition tick_compute (v : cli_vars) (b : baseline) (current_state : state)
  (current_time_ns : Z) : baseline * option state :=
  let time_diff_ns := u64 (current_time_ns - last_time_ns b) in
  let count_diff := u64 (packet_count current_state - last_packet_count b) in
  let b' := mk_baseline current_time_ns (packet_count current_state) in
  let pps := pps_of count_diff time_diff_ns in
  (b', option_map (fun p => set_drop_probability p current_state)
                  (new_prob v pps)).

(** Lines 207-221.  [None]: undefined behaviour.  [Some (b, None)]: the
    lookup failed and the iteration ended at [continue]. *)
Definition tick_read (v : cli_vars) (b : baseline) (m : state_map)
  (io : tick_io) : option (baseline * option state) :=
  match bpf_map_lookup_elem (lookup_ok io) m key with
  | None => Some (b, None)
  | Some current_state =>
      match tick_compute v b current_state (now_ns io) with
      | (b', Some value) => Some (b', Some value)
      | (_, None) => None
      end
  end.

(** Line 222; the return value is ignored. *)
Definition tick_write (m : state_map) (io : tick_io) (value : option state)
  : state_map :=
  match value with
  | None => m
  | Some value => bpf_map_update_elem (update_ok io) m key value
  end.

(** One whole iteration with no packet between the lookup and the update. *)
Definition dynamic_tick (v : cli_vars) (b : baseline) (m : state_map)
  (io : tick_io) : option (baseline * state_map) :=
  match tick_read v b m io with
  | None => None
  | Some (b', value) => Some (b', tick_write m io value)
  end.

(** The [while (1)] loop of the dynamic mode run for as many iterations as
    there are answers in [ios]. *)
Fixpoint control_loop (v : cli_vars) (ios : list tick_io) (b : baseline)
  (m : state_map) : option (baseline * state_map) :=
  match ios with
  | [] => Some (b, m)
  | io :: rest =>
      match dynamic_tick v b m io with
      | None => None
      | Some (b', m') => control_loop v rest b' m'
      end
  end.

End Loader.

(* ===================================================================== *)
(** ** What the command line selects

    The classes of invocations the design document speaks of ("omits
    --mode", "selects fixed mode", "--prob missing"), read off the returns of
    [getopt_long] without running the option loop. *)

Module Cli.
Import Loader.

Definition is_mode (o : getopt_ret) : bool :=
  (opt o =? 0) && String.eqb "mode" (long_name o).

Definition is_short (c : Ascii.ascii) (o : getopt_ret) : bool :=
  opt o =? chr c.

(** The argument of the last [--mode] on the command line. *)
Fixpoint selected_mode (rets : list getopt_ret) (cur : option string)
  : option string :=
  match rets with
  | [] => cur
  | o :: rest =>
      selected_mode rest (if is_mode o then Some (optarg o) else cur)
  end.

(** The argument of the last occurrence of the short option [c] (or of the
    long option mapped to it). *)
Fixpoint last_arg (c : Ascii.ascii) (rets : list getopt_ret)
  (cur : option string) : option string :=
  match rets with
  | [] => cur
  | o :: rest => last_arg c rest (if is_short c o then Some (optarg o) else cur)
  end.

Definition out_of_range (p : Z) : Prop := p < 0 \/ 100 < p.

Definition omits_mode (rets : list getopt_ret) : Prop :=
  selected_mode rets None = None.

Definition fixed_without_valid_prob (atol : string -> Z)
  (rets : list getopt_ret) : Prop :=
  selected_mode rets None = Some "fixed"%string /\
  match last_arg "p" rets None with
  | None => True
  | Some arg => out_of_range (atol arg)
  end.

Definition dynamic_with_invalid_max_prob (atol : string -> Z)
  (rets : list getopt_ret) : Prop :=
  selected_mode rets None = Some "dynamic"%string /\
  match last_arg "P" rets None with
  | None => False
  | Some arg => out_of_range (atol arg)
  end.

(** The mode a [--mode] argument stands for, if the loop accepts it. *)
Definition mode_named (arg : string) : option operating_mode :=
  if String.eqb "dynamic" arg then Some MODE_DYNAMIC
  else if String.eqb "fixed" arg then Some MODE_FIXED
  else None.

(** The locals [v] hold what the options seen so far have selected. *)
Definition agrees (atol : string -> Z) (v : cli_vars)
  (m p mp : option string) : Prop :=
  mode v = match m with None => None | Some arg => mode_named arg end /\
  prob v = match p with None => -1 | Some arg => atol arg end /\
  max_prob v =
    match mp with None => DEFAULT_MAX_PROBABILITY | Some arg => atol arg end.

Definition is_stderr (e : event) : Prop := exists msg, e = ev_stderr msg.

(** The process wrote to standard error and touched nothing else: no
    interface lookup, no object file, no hook, no attachment, no map. *)
Definition only_reports (t : list event) : Prop :=
  t <> [] /\ Forall is_stderr t.

End Cli.


(* ===================================================================== *)
(** ** Concrete runs *)

Module Sample.
Import Loader.

(** [--mode dynamic], [--mode fixed], [--prob <arg>], [--min-rate <arg>]. *)
Definition mode_dynamic : getopt_ret := mk_getopt 0 "mode" "dynamic".
Definition mode_fixed : getopt_ret := mk_getopt 0 "mode" "fixed".
Definition prob_arg (arg : string) : getopt_ret :=
  mk_getopt (chr "p") "prob" arg.
Definition min_rate_arg (arg : string) : getopt_ret :=
  mk_getopt (chr "m") "min-rate" arg.

(** An environment in which every start-up step succeeds, except as the
    arguments say: the returns of the two attachments and of the map
    search, the map found at the fixed-mode write, whether that write
    succeeds. *)
Definition startup (ingress egress fd : Z) (m : state_map) (write_ok : bool)
  : startup_io :=
  mk_startup 3 false 0 true true 0 ingress egress fd m write_ok 0.

(** Dynamic-mode locals with the given thresholds and maximum. *)
Definition dynamic (min max maxp : Z) : cli_vars :=
  mk_cli (Some MODE_DYNAMIC) (-1) maxp min max.

(** The linear branch as the design document writes it,
    [floor((pps - min_rate) / (max_rate - min_rate) * max_probability)],
    in exact arithmetic, for a rate [pps] that is a whole number. *)
Definition exact_linear (v : cli_vars) (pps : Z) : Z :=
  ((pps - min_rate v) * max_prob v) / (max_rate v - min_rate v).

(** Does the code publish the exact value at the whole rate [pps]? *)
Definition matches_exact (v : cli_vars) (pps : Z) : bool :=
  match new_prob v (Double.of_Z pps) with
  | Some p => p =? exact_linear v pps
  | None => false
  end.

(** The rates among [from], [from + step], [from + 2 * step], ... ([n] of
    them) at which it does not. *)
Fixpoint mismatches (v : cli_vars) (from step : Z) (n : nat) : list Z :=
  match n with
  | O => []
  | S n' =>
      if matches_exact v from then mismatches v (from + step) step n'
      else from :: mismatches v (from + step) step n'
  end.

End Sample.

(* ===================================================================== *)
(** ** The monotonic clock *)

Module Clock.

(** [struct timespec] as [clock_gettime] fills it: [time_t tv_sec] and
    [long tv_nsec]. *)
Record timespec : Type := mk_timespec {
  tv_sec : Z;
  tv_nsec : Z
}.

(** [get_time_ns]: [ts.tv_sec * 1000000000ULL + ts.tv_nsec].  Both operands
    are converted to [unsigned long long]; the product and the sum are taken
    modulo [2^64]. *)
Definition get_time_ns (ts : timespec) : Z :=
  u64 (u64 (u64 (tv_sec ts) * 1000000000) + u64 (tv_nsec ts)).

(** What [clock_gettime] returns: a non-negative number of seconds and a
    number of nanoseconds below one second. *)
Definition normalized (ts : timespec) : Prop :=
  0 <= tv_sec ts /\ 0 <= tv_nsec ts < 1000000000.

(** The instant in nanoseconds, without any bound. *)
Definition nanoseconds (ts : timespec) : Z :=
  tv_sec ts * 1000000000 + tv_nsec ts.

End Clock.

(* ===================================================================== *)
(** ** A stream of packets through the classifier *)

Module Traffic.

(** One packet: the value of [bpf_get_prandom_u32()] in its invocation and
    the direction of the hook that saw it (1 ingress, 2 egress). *)
Definition packet : Type := (Z * Z)%type.

Definition classify (m : state_map) (p : packet)
  : Z * state_map * list Filter.printk :=
  Filter.handle_packet m (fst p) (snd p).

(** The invocations of [handle_packet] for the packets of [ps], one after
    the other: the verdicts, in order, and the map at the end. *)
Fixpoint run (m : state_map) (ps : list packet) : list Z * state_map :=
  match ps with
  | [] => ([], m)
  | p :: rest =>
      let r := classify m p in
      let '(vs, m') := run (Filter.map_after r) rest in
      (Filter.verdict r :: vs, m')
  end.

(** Is the draw of [p] below the probability [prob]? *)
Definition hit (prob : Z) (p : packet) : bool :=
  u32 (fst p) mod 100 <? prob.

(** The number of packets of [ps] whose draw is below [prob]. *)
Definition hits (prob : Z) (ps : list packet) : Z :=
  Z.of_nat (length (filter (fun p => hit prob p = true) ps)).

End Traffic.

(* ===================================================================== *)
(** ** Variations of the start-up environment *)

Module Env.
Import Loader.

(** [io] with another return of [bpf_tc_hook_create]. *)
Definition with_hook_create_ret (ret : Z) (io : startup_io) : startup_io :=
  mk_startup (if_nametoindex io) (open_error io) (load_ret io) (ing_prog io)
             (eg_prog io) ret (attach_ingress_ret io) (attach_egress_ret io)
             (map_fd io) (map_at_write io) (fixed_update_ok io)
             (start_time_ns io).

(** Every step of the attachment succeeds under [io]. *)
Definition attachable (io : startup_io) : Prop :=
  if_nametoindex io <> 0 /\
  open_error io = false /\
  load_ret io = 0 /\
  ing_prog io = true /\
  eg_prog io = true /\
  (hook_create_ret io = 0 \/ hook_create_ret io = - EEXIST) /\
  attach_ingress_ret io = 0 /\
  attach_egress_ret io = 0 /\
  0 <= map_fd io.

(** The events of a complete attachment to [ifname]. *)
Definition attached_trace (ifname : string) (ifindex : Z) : list event :=
  [ev_if_nametoindex ifname; ev_object_open; ev_object_load;
   ev_hook_create ifindex; ev_attach_ingress ifindex;
   ev_attach_egress ifindex; ev_signal "SIGINT"; ev_signal "SIGTERM"].

(** An option that makes the loop print the usage text: [-h], or anything
    [getopt_long] reports that the [switch] does not name. *)
Definition asks_usage (o : getopt_ret) : bool :=
  negb (opt o =? 0) && negb (opt o =? chr "p") && negb (opt o =? chr "P") &&
  negb (opt o =? chr "m") && negb (opt o =? chr "M").

(** The locals after [--mode dynamic] alone. *)
Definition cli_init_dynamic : cli_vars := set_mode MODE_DYNAMIC cli_init.

Definition is_attachment (e : event) : bool :=
  match e with
  | ev_attach_ingress _ | ev_attach_egress _ => true
  | _ => false
  end.

Definition is_hook_destroy (e : event) : bool :=
  match e with
  | ev_hook_destroy _ => true
  | _ => false
  end.

End Env.

(* ===================================================================== *)
(** ** Arithmetic of the machine integers *)

Lemma u64_range (z : Z) : is_u64 (u64 z).
Proof. unfold is_u64, u64. apply Z.mod_pos_bound. lia. Qed.

Lemma u32_id (z : Z) : is_u32 z -> u32 z = z.
Proof. unfold is_u32, u32. intros H. apply Z.mod_small. exact H. Qed.

Lemma u64_succ_neq (z : Z) : is_u64 z -> u64 (z + 1) <> z.
Proof.
  unfold is_u64, u64. intros H.
  destruct (Z.eq_dec z (2 ^ 64 - 1)) as [-> | Hne].
  - vm_compute. discriminate.
  - rewrite Z.mod_small by lia. lia.
Qed.

Lemma draw_range (prandom : Z) : 0 <= u32 prandom mod 100 < 100.
Proof. apply Z.mod_pos_bound. lia. Qed.

(* ===================================================================== *)
(** ** Facts about binary64 rounding

    What the rounding functions of [SpecFloat] return on a positive
    mantissa: never a zero or a NaN, and a finite number unless the exponent
    is too large. *)

Lemma fexp_eq (e : Z) : fexp Double.prec Double.emax e = Z.max (e - 53) (-1074).
Proof. reflexivity. Qed.

Lemma digits2_bounds (p : positive) :
  2 ^ (Zpos (digits2_pos p) - 1) <= Zpos p < 2 ^ Zpos (digits2_pos p).
Proof.
  induction p as [p IH | p IH |]; cbn [digits2_pos].
  - rewrite Pos2Z.inj_succ. change (Zpos p~1) with (2 * Zpos p + 1).
    replace (Z.succ (Zpos (digits2_pos p)) - 1)
      with (Z.succ (Zpos (digits2_pos p) - 1)) by lia.
    rewrite !Z.pow_succ_r by lia.
    generalize dependent (2 ^ (Zpos (digits2_pos p) - 1)).
    generalize dependent (2 ^ Zpos (digits2_pos p)). intros; lia.
  - rewrite Pos2Z.inj_succ. change (Zpos p~0) with (2 * Zpos p).
    replace (Z.succ (Zpos (digits2_pos p)) - 1)
      with (Z.succ (Zpos (digits2_pos p) - 1)) by lia.
    rewrite !Z.pow_succ_r by lia.
    generalize dependent (2 ^ (Zpos (digits2_pos p) - 1)).
    generalize dependent (2 ^ Zpos (digits2_pos p)). intros; lia.
  - cbn. lia.
Qed.

Lemma shr_1_m (r : shr_record) :
  0 <= shr_m r -> shr_m (shr_1 r) = shr_m r / 2 /\ 0 <= shr_m (shr_1 r).
Proof.
  destruct r as [m r s]. cbn [shr_m]. intros Hm.
  destruct m as [| p | p]; [| | lia].
  - cbn. split; [reflexivity | lia].
  - rewrite <- Z.div2_div. destruct p; cbn; split; (reflexivity || lia).
Qed.

Lemma iter_shr_1_m (n : positive) :
  forall r : shr_record,
    0 <= shr_m r ->
    shr_m (SpecFloat.iter_pos shr_1 n r) = shr_m r / 2 ^ Zpos n /\
    0 <= shr_m (SpecFloat.iter_pos shr_1 n r).
Proof.
  induction n as [n IH | n IH |]; intros r Hr; cbn [SpecFloat.iter_pos].
  - destruct (shr_1_m r Hr) as [E1 P1].
    destruct (IH _ P1) as [E2 P2].
    destruct (IH _ P2) as [E3 P3].
    split; [| exact P3].
    rewrite E3, E2, E1.
    assert (Hp : 0 < 2 ^ Zpos n) by (apply Z.pow_pos_nonneg; lia).
    rewrite !Z.div_div by lia.
    f_equal.
    change (Zpos n~1) with (2 * Zpos n + 1).
    replace (2 * Zpos n + 1) with (1 + Zpos n + Zpos n) by lia.
    rewrite !Z.pow_add_r by lia. change (2 ^ 1) with 2. ring.
  - destruct (IH _ Hr) as [E2 P2].
    destruct (IH _ P2) as [E3 P3].
    split; [| exact P3].
    rewrite E3, E2.
    assert (Hp : 0 < 2 ^ Zpos n) by (apply Z.pow_pos_nonneg; lia).
    rewrite !Z.div_div by lia.
    f_equal.
    change (Zpos n~0) with (2 * Zpos n).
    replace (2 * Zpos n) with (Zpos n + Zpos n) by lia.
    rewrite !Z.pow_add_r by lia. ring.
  - destruct (shr_1_m r Hr) as [E1 P1]. split; [| exact P1].
    rewrite E1. reflexivity.
Qed.

Lemma shr_record_of_loc_m (m : Z) (l : location) :
  shr_m (shr_record_of_loc m l) = m.
Proof. destruct l as [| []]; reflexivity. Qed.

Lemma shr_fexp_cases (p : positive) (ex : Z) (l : location) :
  -1074 <= ex ->
  let d := Zpos (digits2_pos p) in
  let r := shr_fexp Double.prec Double.emax (Zpos p) ex l in
  (d <= 53 /\ shr_m (fst r) = Zpos p /\ snd r = ex) \/
  (53 < d /\ shr_m (fst r) = Zpos p / 2 ^ (d - 53) /\ snd r = ex + (d - 53)).
Proof.
  intros Hex d r. subst r. unfold shr_fexp. rewrite fexp_eq.
  cbn [Zdigits2]. fold d.
  assert (Hd : 1 <= d) by (subst d; lia).
  unfold shr.
  destruct (Z.max (d + ex - 53) (-1074) - ex) as [| n | n] eqn:En.
  - left. cbn [fst snd]. rewrite shr_record_of_loc_m. lia.
  - right. cbn [fst snd].
    assert (Hn : Zpos n = d - 53) by lia.
    destruct (iter_shr_1_m n (shr_record_of_loc (Zpos p) l)) as [E _].
    { rewrite shr_record_of_loc_m. lia. }
    rewrite E, shr_record_of_loc_m, Hn. lia.
  - left. cbn [fst snd]. rewrite shr_record_of_loc_m. lia.
Qed.

Lemma round_nearest_even_bounds (m : Z) (l : location) :
  m <= round_nearest_even m l <= m + 1.
Proof.
  unfold round_nearest_even.
  destruct l as [| []]; try lia. destruct (Z.even m); lia.
Qed.

Lemma binary_round_aux_shape (sx : bool) (p : positive) (ex : Z) (l : location) :
  -1074 <= ex ->
  let top := Z.max ex (Zpos (digits2_pos p) + ex - 53) in
  (exists m e,
     binary_round_aux Double.prec Double.emax sx (Zpos p) ex l = S754_finite sx m e /\
     top <= e <= top + 1) \/
  (binary_round_aux Double.prec Double.emax sx (Zpos p) ex l = S754_infinity sx /\
   971 <= top).
Proof.
  intros Hex top. unfold binary_round_aux.
  pose proof (shr_fexp_cases p ex l Hex) as H1. cbn zeta in H1.
  pose proof (digits2_bounds p) as [Dlo Dhi].
  set (d := Zpos (digits2_pos p)) in *.
  destruct (shr_fexp Double.prec Double.emax (Zpos p) ex l) as [mrs1 e1]. cbn [fst snd] in H1.
  assert (B1 : 1 <= shr_m mrs1 < 2 ^ 53 /\ e1 = top).
  { destruct H1 as [(Hd & -> & ->) | (Hd & -> & ->)].
    - split; [| subst top; lia].
      assert (2 ^ d <= 2 ^ 53) by (apply Z.pow_le_mono_r; lia). lia.
    - split; [| subst top; lia].
      assert (Hp : 0 < 2 ^ (d - 53)) by (apply Z.pow_pos_nonneg; lia).
      assert (E : 2 ^ d = 2 ^ (d - 53) * 2 ^ 53).
      { rewrite <- Z.pow_add_r by lia. f_equal. lia. }
      assert (E' : 2 ^ (d - 1) = 2 ^ (d - 53) * 2 ^ 52).
      { rewrite <- Z.pow_add_r by lia. f_equal. lia. }
      split.
      + apply Z.le_trans with (2 ^ 52); [lia |].
        apply Z.div_le_lower_bound; lia.
      + apply Z.div_lt_upper_bound; lia. }
  destruct B1 as [B1 ->].
  pose proof (round_nearest_even_bounds (shr_m mrs1) (loc_of_shr_record mrs1)) as B2.
  set (m2 := round_nearest_even (shr_m mrs1) (loc_of_shr_record mrs1)) in *.
  destruct m2 as [| p2 | p2] eqn:Em2; [lia | | lia].
  assert (Htop : -1074 <= top) by (subst top; lia).
  pose proof (shr_fexp_cases p2 top loc_Exact Htop) as H2. cbn zeta in H2.
  pose proof (digits2_bounds p2) as [Dlo2 Dhi2].
  set (d2 := Zpos (digits2_pos p2)) in *.
  destruct (shr_fexp Double.prec Double.emax (Zpos p2) top loc_Exact) as [mrs2 e2].
  cbn [fst snd] in H2.
  assert (B3 : 1 <= shr_m mrs2 /\ top <= e2 <= top + 1).
  { destruct H2 as [(Hd & -> & ->) | (Hd & -> & ->)].
    - lia.
    - assert (d2 = 54).
      { destruct (Z.le_gt_cases d2 54) as [Hle | Hgt]; [lia |].
        assert (2 ^ 54 <= 2 ^ (d2 - 1)) by (apply Z.pow_le_mono_r; lia). lia. }
      replace (d2 - 53) with 1 by lia.
      split; [| lia].
      apply Z.div_le_lower_bound; [lia |].
      assert (2 ^ 53 <= Zpos p2) by (replace 53 with (d2 - 1) by lia; exact Dlo2).
      lia. }
  destruct B3 as [B3 B4].
  destruct (shr_m mrs2) as [| p3 | p3]; [lia | | lia].
  change (Double.emax - Double.prec) with 971.
  destruct (Z.leb_spec e2 971) as [Hle | Hgt].
  - left. exists p3, e2. split; [reflexivity | lia].
  - right. split; [reflexivity | lia].
Qed.

Lemma digits2_iter_xO (m k : positive) :
  digits2_pos (Pos.iter xO m k) = (digits2_pos m + k)%positive.
Proof.
  induction k as [| k IH] using Pos.peano_ind.
  - cbn. rewrite Pos.add_1_r. reflexivity.
  - rewrite Pos.iter_succ. cbn [digits2_pos]. rewrite IH, Pos.add_succ_r.
    reflexivity.
Qed.

Lemma binary_round_int_shape (sx : bool) (p : positive) :
  Zpos p < 2 ^ 64 ->
  exists m e,
    binary_round Double.prec Double.emax sx p 0 = S754_finite sx m e /\ -52 <= e <= 12.
Proof.
  intros Hp. unfold binary_round. rewrite fexp_eq.
  pose proof (digits2_bounds p) as [Dlo Dhi].
  set (d := Zpos (digits2_pos p)) in *.
  assert (Hd : 1 <= d <= 64).
  { split; [subst d; lia |].
    destruct (Z.le_gt_cases d 64) as [H | H]; [exact H |].
    assert (2 ^ 64 <= 2 ^ (d - 1)) by (apply Z.pow_le_mono_r; lia). lia. }
  unfold shl_align.
  destruct (Z.max (d + 0 - 53) (-1074) - 0) as [| k | k] eqn:Ek.
  - destruct (binary_round_aux_shape sx p 0 loc_Exact) as [(m & e & -> & He) | [_ He]];
      [lia | | fold d in He; lia].
    fold d in He. exists m, e. split; [reflexivity | lia].
  - destruct (binary_round_aux_shape sx p 0 loc_Exact) as [(m & e & -> & He) | [_ He]];
      [lia | | fold d in He; lia].
    fold d in He. exists m, e. split; [reflexivity | lia].
  - assert (Hk : Zpos k = 53 - d) by lia.
    replace (Z.max (d + 0 - 53) (-1074)) with (d - 53) by lia.
    destruct (binary_round_aux_shape sx (Pos.iter xO p k) (d - 53) loc_Exact)
      as [(m & e & -> & He) | [_ He]]; [lia | |];
      rewrite digits2_iter_xO, Pos2Z.inj_add in He; fold d in He.
    + exists m, e. split; [reflexivity | lia].
    + lia.
Qed.

Lemma of_Z_shape (z : Z) :
  - 2 ^ 64 < z < 2 ^ 64 ->
  z <> 0 ->
  exists m e, Double.of_Z z = S754_finite (z <? 0) m e /\ -52 <= e <= 12.
Proof.
  intros Hz Hne. unfold Double.of_Z, binary_normalize.
  destruct z as [| p | p]; [congruence | |].
  - apply binary_round_int_shape. lia.
  - apply binary_round_int_shape. lia.
Qed.

Lemma SFcompare_swap (x y : spec_float) :
  SFcompare y x = option_map CompOpp (SFcompare x y).
Proof.
  destruct x as [sx | sx | | sx mx ex], y as [sy | sy | | sy my ey];
    try (destruct sx); try (destruct sy); try reflexivity; cbn;
    rewrite (Z.compare_antisym ey ex);
    destruct (ey ?= ex); cbn; try reflexivity;
    rewrite !Pos.compare_cont_spec, (Pos.compare_antisym my mx); cbn;
    destruct (my ?= mx)%positive; reflexivity.
Qed.

Lemma SFleb_SFltb_trans (x y z : spec_float) :
  SFleb x y = true -> SFltb y z = true -> SFleb x z = true.
Proof.
  unfold SFleb, SFltb.
  destruct x as [sx | sx | | sx mx ex], y as [sy | sy | | sy my ey],
           z as [sz | sz | | sz mz ez];
    try (destruct sx); try (destruct sy); try (destruct sz);
    cbn; try congruence;
    rewrite ?Pos.compare_cont_spec; cbn;
    repeat match goal with
           | |- context [(?a ?= ?b)%Z] =>
               destruct (Z.compare_spec a b)
           | |- context [(?a ?= ?b)%positive] =>
               destruct (Pos.compare_spec a b)
           end; cbn; try congruence; try lia.
Qed.

(* ===================================================================== *)
(** ** The per-packet classifier *)

Section FilterFacts.
Import Filter.

Variables (m : state_map) (s : state) (prandom direction : Z).
Hypothesis entry : m !! key = Some s.

Lemma key_in_range : (key < length m)%nat.
Proof. eapply lookup_lt_Some. exact entry. Qed.

(** The two ways an invocation that found the entry can end. *)
Lemma handle_packet_cases :
  (u32 prandom mod 100 < drop_probability s /\
   handle_packet m prandom direction =
     (TC_ACT_SHOT,
      <[key := mk_state (u64 (packet_count s + 1))
                        (u64 (dropped_count s + 1)) (drop_probability s)]> m,
      [mk_printk direction (drop_probability s)])) \/
  (~ u32 prandom mod 100 < drop_probability s /\
   handle_packet m prandom direction =
     (TC_ACT_OK,
      <[key := mk_state (u64 (packet_count s + 1)) (dropped_count s)
                        (drop_probability s)]> m,
      [])).
Proof.
  unfold handle_packet. rewrite entry. cbn [set_packet_count drop_probability].
  destruct (Z.ltb_spec (u32 prandom mod 100) (drop_probability s)) as [Hlt | Hge].
  - left. split; [exact Hlt | reflexivity].
  - right. split; [lia | reflexivity].
Qed.

End FilterFacts.

(** What an invocation that found the record [s] does to the counters. *)
Lemma counters_after_packet
  (m : state_map) (s : state) (prandom direction : Z) :
  m !! key = Some s ->
  wf_state s ->
  let r := Filter.handle_packet m prandom direction in
  exists s',
    Filter.map_after r !! key = Some s' /\
    packet_count s' = u64 (packet_count s + 1) /\
    packet_count s' <> packet_count s /\
    (Filter.verdict r = Filter.TC_ACT_SHOT \/
     Filter.verdict r = Filter.TC_ACT_OK) /\
    dropped_count s' =
      (if Filter.verdict r =? Filter.TC_ACT_SHOT
       then u64 (dropped_count s + 1) else dropped_count s) /\
    (dropped_count s' <> dropped_count s <->
     Filter.verdict r = Filter.TC_ACT_SHOT).
Proof.
  intros Hm (Hpc & Hdc & _) r. subst r.
  pose proof (key_in_range m s Hm) as Hlen.
  destruct (handle_packet_cases m s prandom direction Hm) as [[_ ->] | [_ ->]];
    eexists; (split; [apply list_lookup_insert_eq; exact Hlen |]);
    cbn [packet_count dropped_count Filter.verdict fst].
  - repeat split; auto using u64_succ_neq.
  - repeat split; auto using u64_succ_neq.
    intros H. contradiction.
Qed.

(** The verdict of an invocation that found the record [s]. *)
Lemma verdict_of_packet
  (m : state_map) (s : state) (prandom direction : Z) :
  m !! key = Some s ->
  let draw := u32 prandom mod 100 in
  let v := Filter.verdict (Filter.handle_packet m prandom direction) in
  (v = Filter.TC_ACT_SHOT <-> draw < drop_probability s) /\
  (v = Filter.TC_ACT_OK <-> ~ draw < drop_probability s).
Proof.
  intros Hm draw v. subst v.
  destruct (handle_packet_cases m s prandom direction Hm) as [[H ->] | [H ->]];
    fold draw in H; cbn [Filter.verdict fst];
    unfold Filter.TC_ACT_SHOT, Filter.TC_ACT_OK.
  - repeat split; intros; try lia; try discriminate; try contradiction.
  - repeat split; intros; try lia; try discriminate; try contradiction.
Qed.

Lemma declared_entry (m : state_map) :
  declared m -> exists s, m = [s] /\ m !! key = Some s.
Proof.
  unfold declared. intros H.
  destruct m as [| s [| s' rest]]; try discriminate H.
  exists s. split; reflexivity.
Qed.

(** With a perfectly uniform 32-bit generator the draw is uniform up to the
    modulo bias: the 32-bit values whose draw is [k] are [100 * j + k] for
    [j] below 42949673 when [k < 96] and below 42949672 otherwise. *)
Lemma draw_preimages (k r : Z) :
  0 <= k < 100 ->
  is_u32 r ->
  u32 r mod 100 = k <->
  exists j, 0 <= j < (if k <? 96 then 42949673 else 42949672) /\
            r = 100 * j + k.
Proof.
  intros Hk Hr. rewrite (u32_id r Hr). unfold is_u32 in Hr.
  change (2 ^ 32) with 4294967296 in Hr.
  split.
  - intros <-. exists (r / 100).
    pose proof (Z.div_mod r 100 ltac:(lia)) as Hdm.
    pose proof (Z.mod_pos_bound r 100 ltac:(lia)) as Hmod.
    split; [| lia].
    destruct (Z.ltb_spec (r mod 100) 96); lia.
  - intros (j & Hj & ->).
    rewrite Z.add_comm, Z.mul_comm, Z.mod_add by lia.
    apply Z.mod_small. exact Hk.
Qed.

(** C6.  On the map as declared, every invocation of the classifier adds one
    to [packet_count] (a 64-bit unsigned counter) whatever the verdict, and
    adds one to [dropped_count] exactly when the verdict is [TC_ACT_SHOT]
    (Drop); otherwise [dropped_count] keeps its value and the verdict is
    [TC_ACT_OK] (Accept). *)
Theorem C6_counters_follow_verdict
  (m : state_map) (prandom direction : Z) :
  declared m ->
  Forall wf_state m ->
  let r := Filter.handle_packet m prandom direction in
  exists s s',
    m !! key = Some s /\
    Filter.map_after r !! key = Some s' /\
    packet_count s' = u64 (packet_count s + 1) /\
    packet_count s' <> packet_count s /\
    (Filter.verdict r = Filter.TC_ACT_SHOT \/
     Filter.verdict r = Filter.TC_ACT_OK) /\
    dropped_count s' =
      (if Filter.verdict r =? Filter.TC_ACT_SHOT
       then u64 (dropped_count s + 1) else dropped_count s) /\
    (dropped_count s' <> dropped_count s <->
     Filter.verdict r = Filter.TC_ACT_SHOT).
Proof.
  intros Hdecl Hwf r.
  destruct (declared_entry m Hdecl) as (s & -> & Hs).
  assert (Hwfs : wf_state s) by (inversion Hwf; assumption).
  destruct (counters_after_packet [s] s prandom direction Hs Hwfs)
    as (s' & H).
  exists s, s'. split; [exact Hs | exact H].
Qed.

Lemma C6_witness :
  let m := [mk_state 4 1 100] in
  let r := Filter.handle_packet m 7 1 in
  declared m /\ Forall wf_state m /\
  exists s s',
    m !! key = Some s /\
    Filter.map_after r !! key = Some s' /\
    packet_count s' = u64 (packet_count s + 1) /\
    packet_count s' <> packet_count s /\
    (Filter.verdict r = Filter.TC_ACT_SHOT \/
     Filter.verdict r = Filter.TC_ACT_OK) /\
    dropped_count s' =
      (if Filter.verdict r =? Filter.TC_ACT_SHOT
       then u64 (dropped_count s + 1) else dropped_count s) /\
    (dropped_count s' <> dropped_count s <->
     Filter.verdict r = Filter.TC_ACT_SHOT).
Proof.
  assert (Hd : declared [mk_state 4 1 100]) by reflexivity.
  assert (Hw : Forall wf_state [mk_state 4 1 100]).
  { repeat constructor; cbn; lia. }
  split; [exact Hd |]. split; [exact Hw |].
  exact (C6_counters_follow_verdict [mk_state 4 1 100] 7 1 Hd Hw).
Defined.

(** C7.  On the map as declared, every invocation of the classifier makes
    one draw, [bpf_get_prandom_u32() % 100], which lies in [0,100); the
    verdict is [TC_ACT_SHOT] (Drop) exactly when the draw is strictly below
    the current [drop_probability] and [TC_ACT_OK] (Accept) otherwise.
    Hence probability 0 never drops and probability 100 always drops. *)
Theorem C7_drop_iff_draw_below_probability
  (m : state_map) (prandom direction : Z) :
  declared m ->
  let draw := u32 prandom mod 100 in
  let v := Filter.verdict (Filter.handle_packet m prandom direction) in
  exists s,
    m !! key = Some s /\
    0 <= draw < 100 /\
    (v = Filter.TC_ACT_SHOT <-> draw < drop_probability s) /\
    (v = Filter.TC_ACT_OK <-> ~ draw < drop_probability s) /\
    (drop_probability s = 0 -> v = Filter.TC_ACT_OK) /\
    (drop_probability s = 100 -> v = Filter.TC_ACT_SHOT).
Proof.
  intros Hdecl draw v.
  destruct (declared_entry m Hdecl) as (s & -> & Hs).
  pose proof (draw_range prandom) as Hd. fold draw in Hd.
  destruct (verdict_of_packet [s] s prandom direction Hs) as [Hshot Hok].
  fold draw in Hshot, Hok. fold v in Hshot, Hok.
  exists s. repeat split; try (apply Hshot || apply Hok); try lia;
    intros H; try (apply Hshot; lia); try (apply Hok; lia).
Qed.

Lemma C7_witness :
  let m := [mk_state 4 1 100] in
  let v := Filter.verdict (Filter.handle_packet m 4294967295 2) in
  declared m /\
  exists s,
    m !! key = Some s /\
    0 <= u32 4294967295 mod 100 < 100 /\
    (v = Filter.TC_ACT_SHOT <-> u32 4294967295 mod 100 < drop_probability s) /\
    (v = Filter.TC_ACT_OK <-> ~ u32 4294967295 mod 100 < drop_probability s) /\
    (drop_probability s = 0 -> v = Filter.TC_ACT_OK) /\
    (drop_probability s = 100 -> v = Filter.TC_ACT_SHOT).
Proof.
  assert (Hd : declared [mk_state 4 1 100]) by reflexivity.
  split; [exact Hd |].
  exact (C7_drop_iff_draw_below_probability [mk_state 4 1 100] 4294967295 2 Hd).
Defined.

(** C10.  When the lookup of the shared record fails (the map has no entry
    for the key, which the map as declared always has), the classifier
    returns [TC_ACT_OK] (Accept), leaves the map exactly as it was (neither
    counter is touched) and emits no diagnostic. *)
Theorem C10_lookup_failure_accepts (m : state_map) (prandom direction : Z) :
  m !! key = None ->
  Filter.handle_packet m prandom direction = (Filter.TC_ACT_OK, m, []).
Proof. intros Hm. unfold Filter.handle_packet. rewrite Hm. reflexivity. Qed.

Lemma C10_witness :
  ([] : state_map) !! key = None /\
  Filter.handle_packet [] 12345 1 = (Filter.TC_ACT_OK, [], []).
Proof.
  split; [reflexivity |].
  apply (C10_lookup_failure_accepts [] 12345 1). reflexivity.
Defined.

(* ===================================================================== *)
(** ** Start-up: options, validation, attachment *)

Section Startup.
Import Loader Cli.

Variable atol : string -> Z.

Lemma bind_exit {A B : Type} (t : list event) (code : Z) (k : A -> proc B) :
  bind (t, inl code) k = (t, inl code).
Proof. reflexivity. Qed.

Lemma bind_ret_nil {A B : Type} (a : A) (k : A -> proc B) :
  bind ([], inr a) k = k a.
Proof. unfold bind. destruct (k a). reflexivity. Qed.

Lemma reports_2 (a b : message) : only_reports [ev_stderr a; ev_stderr b].
Proof.
  split; [discriminate |].
  repeat constructor; unfold is_stderr; eauto.
Qed.

Lemma reports_1 (a : message) : only_reports [ev_stderr a].
Proof.
  split; [discriminate |].
  repeat constructor; unfold is_stderr; eauto.
Qed.

(** The option loop either stops the process with status 1 after writing
    only to standard error, or ends silently with locals that hold the last
    [--mode], [--prob] and [--max-prob] of the command line. *)
Lemma getopt_loop_inv (rets : list getopt_ret) :
  forall (v : cli_vars) (m p mp : option string),
    agrees atol v m p mp ->
    match getopt_loop atol rets v with
    | (t, inl code) => code = 1 /\ only_reports t
    | (t, inr v') =>
        t = [] /\
        agrees atol v' (selected_mode rets m) (last_arg "p" rets p)
               (last_arg "P" rets mp)
    end.
Proof.
  induction rets as [| o rest IH]; intros v m p mp Hv.
  - cbn. split; [reflexivity | exact Hv].
  - destruct Hv as (Hm & Hp & Hmp).
    cbn [getopt_loop selected_mode last_arg].
    unfold is_mode, is_short.
    destruct (Z.eqb_spec (opt o) 0) as [H0 | H0].
    + replace (opt o =? chr "p") with false
        by (rewrite H0; reflexivity).
      replace (opt o =? chr "P") with false
        by (rewrite H0; reflexivity).
      cbn [andb].
      destruct (String.eqb "mode" (long_name o)).
      * destruct (String.eqb "dynamic" (optarg o)) eqn:Hd;
          [| destruct (String.eqb "fixed" (optarg o)) eqn:Hf].
        -- apply IH. repeat split; cbn; [| exact Hp | exact Hmp].
           unfold mode_named. rewrite Hd. reflexivity.
        -- apply IH. repeat split; cbn; [| exact Hp | exact Hmp].
           unfold mode_named. rewrite Hd, Hf. reflexivity.
        -- cbn. split; [reflexivity | apply reports_2].
      * apply IH. repeat split; assumption.
    + cbn [andb].
      destruct (Z.eqb_spec (opt o) (chr "p")) as [Hp' | Hp'].
      * replace (opt o =? chr "P") with false
          by (rewrite Hp'; reflexivity).
        apply IH. repeat split; cbn; assumption || reflexivity.
      * destruct (Z.eqb_spec (opt o) (chr "P")) as [HP | HP].
        -- apply IH. repeat split; cbn; assumption || reflexivity.
        -- destruct (opt o =? chr "m"); [| destruct (opt o =? chr "M")].
           ++ apply IH. repeat split; cbn; assumption.
           ++ apply IH. repeat split; cbn; assumption.
           ++ cbn. split; [reflexivity | apply reports_1].
Qed.

Lemma agrees_init : agrees atol cli_init None None None.
Proof. repeat split. Qed.

Lemma bind_inr {A B : Type} (c : proc A) (k : A -> proc B)
  (t : list event) (b : B) :
  bind c k = (t, inr b) ->
  exists t1 a t2, c = (t1, inr a) /\ k a = (t2, inr b) /\ t = t1 ++ t2.
Proof.
  destruct c as [t1 [code | a]]; cbn; [discriminate |].
  destruct (k a) as [t2 r] eqn:Hk. intros H. injection H as <- ->.
  exists t1, a, t2. repeat split. exact Hk.
Qed.

(** What a successful validation has established. *)
Lemma validate_ok (v : cli_vars) (ifname : option string)
  (t : list event) (md : operating_mode) (name : string) :
  validate v ifname = (t, inr (md, name)) ->
  mode v = Some md /\
  match md with
  | MODE_FIXED => 0 <= prob v <= 100
  | MODE_DYNAMIC => 0 <= max_prob v <= 100
  end.
Proof.
  unfold validate. destruct (mode v) as [md' |]; [| discriminate].
  intros H. apply bind_inr in H as (t1 & [] & t2 & Hcheck & Hif & _).
  destruct ifname as [name' |]; [| discriminate].
  injection Hif as _ -> ->. split; [reflexivity |].
  destruct md.
  - destruct (Z.ltb_spec (max_prob v) 0); [discriminate |].
    destruct (Z.ltb_spec 100 (max_prob v)); [discriminate |]. lia.
  - destruct (prob v =? -1); [discriminate |].
    destruct (Z.ltb_spec (prob v) 0); [discriminate |].
    destruct (Z.ltb_spec 100 (prob v)); [discriminate |]. lia.
Qed.

(** Once [main] idles in fixed mode, the map holds the validated
    probability, and zeros in both counters. *)
Lemma fixed_mode_publishes_validated (rets : list getopt_ret)
  (ifname : option string) (io : startup_io)
  (t : list event) (ifindex : Z) (m' : state_map) :
  main atol rets ifname io = (t, inr (fixed_idle ifindex m')) ->
  exists p, m' !! key = Some (mk_state 0 0 p) /\ 0 <= p <= 100.
Proof.
  unfold main. intros H.
  apply bind_inr in H as (t1 & v & t2 & _ & H & _).
  apply bind_inr in H as (t3 & [md name] & t4 & Hval & H & _).
  apply bind_inr in H as (t5 & k & t6 & _ & H & _).
  apply validate_ok in Hval as [_ Hrange].
  cbn [fst] in H. destruct md; [discriminate |].
  unfold fixed_mode in H.
  apply bind_inr in H as (t7 & [] & t8 & _ & H & _).
  destruct (fixed_update_ok io); [| discriminate].
  destruct (Nat.ltb_spec key (length (map_at_write io))) as [Hlen | Hlen];
    [| discriminate].
  cbn in H. injection H as _ _ <-.
  exists (prob v). split; [| exact Hrange].
  etransitivity; [apply list_lookup_insert_eq; exact Hlen |].
  unfold fixed_state. rewrite u32_id by (unfold is_u32; lia). reflexivity.
Qed.

(** Once [main] is in the dynamic loop, [max_prob] is validated. *)
Lemma dynamic_loop_validated (rets : list getopt_ret)
  (ifname : option string) (io : startup_io)
  (t : list event) (ifindex : Z) (v : cli_vars) (b : baseline) :
  main atol rets ifname io = (t, inr (dynamic_loop ifindex v b)) ->
  0 <= max_prob v <= 100.
Proof.
  unfold main. intros H.
  apply bind_inr in H as (t1 & v' & t2 & _ & H & _).
  apply bind_inr in H as (t3 & [md name] & t4 & Hval & H & _).
  apply bind_inr in H as (t5 & k & t6 & _ & H & _).
  apply validate_ok in Hval as [_ Hrange].
  cbn [fst] in H. destruct md.
  - injection H as _ _ <- _. exact Hrange.
  - unfold fixed_mode in H.
    apply bind_inr in H as (t7 & [] & t8 & _ & H & _).
    destruct (fixed_update_ok io && (key <? length (map_at_write io))%nat);
      discriminate.
Qed.

End Startup.

(** C9.  Validation precedes attachment.  Whenever the command line has no
    [--mode], or its last [--mode] is [fixed] while [--prob] is absent or its
    value lies outside [0,100], or its last [--mode] is [dynamic] while the
    last [--max-prob] lies outside [0,100], [main] ends with status 1 having
    only written to standard error: no interface lookup, no object load, no
    hook creation, no attachment and no map access was attempted. *)
Theorem C9_invalid_configuration_rejected_before_attachment
  (atol : string -> Z) (rets : list Loader.getopt_ret)
  (ifname : option string) (io : Loader.startup_io) :
  Cli.omits_mode rets \/
  Cli.fixed_without_valid_prob atol rets \/
  Cli.dynamic_with_invalid_max_prob atol rets ->
  Loader.exit_status (Loader.main atol rets ifname io) = Some 1 /\
  Cli.only_reports (Loader.trace (Loader.main atol rets ifname io)).
Proof.
  intros Hclass.
  pose proof (getopt_loop_inv atol rets Loader.cli_init None None None
                (agrees_init atol)) as Hloop.
  unfold Loader.main.
  destruct (Loader.getopt_loop atol rets Loader.cli_init) as [t [code | v]].
  - destruct Hloop as [-> Hrep]. cbn. split; [reflexivity | exact Hrep].
  - destruct Hloop as [-> (Hm & Hp & Hmp)].
    rewrite bind_ret_nil. unfold Loader.validate.
    destruct Hclass as [Ha | [[Hsel Hb] | [Hsel Hc]]].
    + unfold Cli.omits_mode in Ha. rewrite Ha in Hm. rewrite Hm.
      cbn. split; [reflexivity | apply reports_2].
    + rewrite Hsel in Hm. cbn in Hm. rewrite Hm.
      destruct (Z.eqb_spec (Loader.prob v) (-1)) as [E | E].
      * cbn. split; [reflexivity | apply reports_2].
      * assert (Hout : Cli.out_of_range (Loader.prob v)).
        { rewrite Hp. destruct (Cli.last_arg "p" rets None).
          - exact Hb.
          - contradiction E. }
        replace ((Loader.prob v <? 0) || (100 <? Loader.prob v)) with true
          by (unfold Cli.out_of_range in Hout;
              destruct (Z.ltb_spec (Loader.prob v) 0);
              destruct (Z.ltb_spec 100 (Loader.prob v)); cbn; lia || reflexivity).
        cbn. split; [reflexivity | apply reports_1].
    + rewrite Hsel in Hm. cbn in Hm. rewrite Hm.
      assert (Hout : Cli.out_of_range (Loader.max_prob v)).
      { rewrite Hmp. destruct (Cli.last_arg "P" rets None).
        - exact Hc.
        - contradiction. }
      replace ((Loader.max_prob v <? 0) || (100 <? Loader.max_prob v))
        with true
        by (unfold Cli.out_of_range in Hout;
            destruct (Z.ltb_spec (Loader.max_prob v) 0);
            destruct (Z.ltb_spec 100 (Loader.max_prob v));
            cbn; lia || reflexivity).
      cbn. split; [reflexivity | apply reports_1].
Qed.

Lemma C9_witness :
  let atol := fun _ : string => 150 in
  let rets := [Sample.mode_fixed; Sample.prob_arg "150"] in
  let io := Sample.startup 0 0 5 fresh_map true in
  Cli.fixed_without_valid_prob atol rets /\
  Loader.exit_status (Loader.main atol rets (Some "eth0"%string) io) = Some 1 /\
  Cli.only_reports (Loader.trace (Loader.main atol rets (Some "eth0"%string) io)).
Proof.
  assert (H : Cli.fixed_without_valid_prob
                (fun _ : string => 150)
                [Sample.mode_fixed; Sample.prob_arg "150"]).
  { split; [reflexivity |]. cbn. right. lia. }
  split; [exact H |].
  apply (C9_invalid_configuration_rejected_before_attachment
           (fun _ : string => 150)
           [Sample.mode_fixed; Sample.prob_arg "150"]
           (Some "eth0"%string) (Sample.startup 0 0 5 fresh_map true)).
  right. left. exact H.
Defined.

(** Failures up to and including the creation of the hook end [main] with
    status 1, for every valid dynamic-mode command line. *)
Lemma failures_before_attachment_exit_1
  (atol : string -> Z) (io : Loader.startup_io) :
  Loader.if_nametoindex io = 0 \/
  Loader.open_error io = true \/
  Loader.load_ret io <> 0 \/
  Loader.ing_prog io = false \/
  Loader.eg_prog io = false \/
  (Loader.hook_create_ret io <> 0 /\
   Loader.hook_create_ret io <> - Loader.EEXIST) ->
  Loader.exit_status
    (Loader.main atol [Sample.mode_dynamic] (Some "eth0"%string) io) = Some 1.
Proof.
  intros H. unfold Loader.main, Loader.attach. cbn.
  destruct (Z.eqb_spec (Loader.if_nametoindex io) 0) as [E0 | E0];
    [reflexivity |].
  destruct (Loader.open_error io) eqn:E1; [reflexivity |].
  destruct (Z.eqb_spec (Loader.load_ret io) 0) as [E2 | E2];
    [| reflexivity].
  destruct (Loader.ing_prog io) eqn:E3; [| reflexivity].
  destruct (Loader.eg_prog io) eqn:E4; [| reflexivity].
  destruct (Z.eqb_spec (Loader.hook_create_ret io) 0) as [E5 | E5];
    [exfalso; intuition congruence |].
  destruct (Z.eqb_spec (Loader.hook_create_ret io) (- Loader.EEXIST))
    as [E6 | E6]; [exfalso; intuition congruence |].
  reflexivity.
Qed.

(** The handler of SIGINT and SIGTERM destroys the hook and ends the
    process with status 0. *)
Lemma signal_exits_0 (r : Loader.running) :
  exists ifindex,
    Loader.on_signal r = ([Loader.ev_hook_destroy ifindex], inl 0).
Proof. destruct r as [k m | k v b]; exists k; reflexivity. Qed.

(** C2.  The failures that follow the creation of the hook do not end the
    process with status 1.  A failed ingress attachment, a failed egress
    attachment, a missing [state_map] and a failed fixed-mode write each
    print their message and call [cleanup], which destroys the hook and
    calls [exit(0)]: the [return 1] written after the call is never
    reached. *)
Theorem C2_failures_after_hook_creation_exit_0 (atol : string -> Z) :
  let dyn := fun io =>
    Loader.main atol [Sample.mode_dynamic] (Some "eth0"%string) io in
  let fixed := fun io =>
    Loader.main (fun _ => 37) [Sample.mode_fixed; Sample.prob_arg "37"]
                (Some "eth0"%string) io in
  dyn (Sample.startup (-1) 0 5 fresh_map true) =
    ([Loader.ev_if_nametoindex "eth0"; Loader.ev_object_open;
      Loader.ev_object_load; Loader.ev_hook_create 3;
      Loader.ev_attach_ingress 3;
      Loader.ev_stderr (Loader.msg_attach_ingress (-1));
      Loader.ev_hook_destroy 3], inl 0) /\
  Loader.exit_status (dyn (Sample.startup 0 (-1) 5 fresh_map true)) = Some 0 /\
  Loader.exit_status (dyn (Sample.startup 0 0 (-1) fresh_map true)) = Some 0 /\
  Loader.exit_status (fixed (Sample.startup 0 0 5 fresh_map false)) = Some 0.
Proof. repeat split. Qed.

(* ===================================================================== *)
(** ** The dynamic loop: control flow *)

(** C8.  When the lookup at the start of an iteration fails, the iteration
    ends at once: the map is not written, the baseline (last timestamp and
    last packet count) keeps its value, nothing undefined happens and the
    loop goes on with the next iteration exactly as if this one had not
    taken place.  A run of the loop made only of failed lookups is still
    in the loop, with its state intact. *)
Theorem C8_lookup_failure_skips_tick
  (v : Loader.cli_vars) (b : Loader.baseline) (m : state_map)
  (io : Loader.tick_io) (rest : list Loader.tick_io) :
  Loader.bpf_map_lookup_elem (Loader.lookup_ok io) m key = None ->
  Loader.tick_read v b m io = Some (b, None) /\
  Loader.dynamic_tick v b m io = Some (b, m) /\
  Loader.control_loop v (io :: rest) b m = Loader.control_loop v rest b m /\
  forall ios : list Loader.tick_io,
    Forall (fun io' => Loader.lookup_ok io' = false) ios ->
    Loader.control_loop v ios b m = Some (b, m).
Proof.
  intros Hfail.
  assert (Hread : Loader.tick_read v b m io = Some (b, None)).
  { unfold Loader.tick_read. rewrite Hfail. reflexivity. }
  assert (Htick : Loader.dynamic_tick v b m io = Some (b, m)).
  { unfold Loader.dynamic_tick. rewrite Hread. reflexivity. }
  repeat split; try assumption.
  - cbn [Loader.control_loop]. rewrite Htick. reflexivity.
  - intros ios Hall. induction Hall as [| io' ios' Hio' _ IH].
    + reflexivity.
    + cbn [Loader.control_loop].
      unfold Loader.dynamic_tick, Loader.tick_read, Loader.bpf_map_lookup_elem.
      rewrite Hio'. cbn. exact IH.
Qed.

Lemma C8_witness :
  let v := Sample.dynamic 1000 100000 50 in
  let b := Loader.mk_baseline 7000000000 42 in
  let m := [mk_state 50 3 20] in
  let io := Loader.mk_tick false 8000000000 true in
  Loader.bpf_map_lookup_elem (Loader.lookup_ok io) m key = None /\
  Loader.dynamic_tick v b m io = Some (b, m).
Proof.
  split; [reflexivity |].
  apply (C8_lookup_failure_skips_tick
           (Sample.dynamic 1000 100000 50)
           (Loader.mk_baseline 7000000000 42) [mk_state 50 3 20]
           (Loader.mk_tick false 8000000000 true) []).
  reflexivity.
Defined.

(* ===================================================================== *)
(** ** The rate-to-probability map *)

Section RateMap.
Import Loader.

Lemma ge_excludes_gt (x y : Double.double) :
  Double.ge y x = true -> Double.gt x y = false.
Proof.
  unfold Double.ge, Double.gt, SFleb, SFltb.
  rewrite (SFcompare_swap x y).
  destruct (SFcompare x y) as [[ | | ] |]; cbn; congruence.
Qed.

Lemma gt_excludes_ge (x y : Double.double) :
  Double.gt y x = true -> Double.ge x y = false.
Proof.
  unfold Double.ge, Double.gt, SFleb, SFltb.
  rewrite (SFcompare_swap x y).
  destruct (SFcompare x y) as [[ | | ] |]; cbn; congruence.
Qed.

(** A [long] converts to a zero or to a finite double. *)
Lemma of_long_cases (z : Z) :
  is_long z ->
  Double.of_Z z = S754_zero false \/
  exists s m e, Double.of_Z z = S754_finite s m e.
Proof.
  intros Hz. destruct (Z.eq_dec z 0) as [-> | Hne].
  - left. reflexivity.
  - right. unfold is_long in Hz.
    destruct (of_Z_shape z) as (m & e & H & _); [lia | exact Hne |].
    eauto.
Qed.

Lemma pps_idle_zero_elapsed : pps_of 0 0 = S754_nan.
Proof. reflexivity. Qed.

Lemma pps_busy_zero_elapsed (count_diff : Z) :
  0 < count_diff < 2 ^ 64 -> pps_of count_diff 0 = S754_infinity false.
Proof.
  intros Hc. unfold pps_of.
  destruct (of_Z_shape count_diff) as (m & e & -> & He); [lia | lia |].
  replace (count_diff <? 0) with false by (symmetry; apply Z.ltb_ge; lia).
  change billion with (S754_finite false 8388608000000000 (-23)).
  change (Double.of_Z 0) with (S754_zero false).
  unfold Double.mul, SFmul. cbn [xorb].
  destruct (binary_round_aux_shape false (m * 8388608000000000) (e + -23)
              loc_Exact) as [(m' & e' & -> & _) | [-> _]]; [lia | |];
    reflexivity.
Qed.

Lemma pps_zero_elapsed (count_diff : Z) :
  is_u64 count_diff ->
  pps_of count_diff 0 =
    (if count_diff =? 0 then S754_nan else S754_infinity false).
Proof.
  unfold is_u64. intros Hc.
  destruct (Z.eqb_spec count_diff 0) as [-> | Hne].
  - apply pps_idle_zero_elapsed.
  - apply pps_busy_zero_elapsed. lia.
Qed.

Lemma new_prob_nan (v : cli_vars) : new_prob v S754_nan = Some 0.
Proof.
  unfold new_prob, Double.gt, SFltb.
  destruct (Double.of_Z (min_rate v)); reflexivity.
Qed.

Lemma new_prob_infinity (v : cli_vars) :
  is_long (min_rate v) -> is_long (max_rate v) ->
  new_prob v (S754_infinity false) = Some (u32 (max_prob v)).
Proof.
  intros Hmin Hmax. unfold new_prob, Double.gt, Double.ge, SFltb, SFleb.
  destruct (of_long_cases _ Hmin) as [-> | (s & m & e & ->)];
    destruct (of_long_cases _ Hmax) as [-> | (s' & m' & e' & ->)];
    reflexivity.
Qed.

(** Outside the linear branch the value is 0 or the validated maximum. *)
Lemma new_prob_clamped (v : cli_vars) (pps : Double.double) :
  0 <= max_prob v <= 100 ->
  Double.gt pps (Double.of_Z (min_rate v)) = false \/
  Double.ge pps (Double.of_Z (max_rate v)) = true ->
  exists p, new_prob v pps = Some p /\ 0 <= p <= 100.
Proof.
  intros Hmax H. unfold new_prob.
  destruct (Double.gt pps (Double.of_Z (min_rate v))).
  - destruct H as [H | ->]; [discriminate |].
    exists (u32 (max_prob v)). split; [reflexivity |].
    rewrite u32_id by (unfold is_u32; lia). exact Hmax.
  - exists 0. split; [reflexivity | lia].
Qed.

(** When the thresholds are not in increasing order, as doubles, the linear
    branch is never taken. *)
Lemma new_prob_unordered_thresholds (v : cli_vars) (pps : Double.double) :
  0 <= max_prob v <= 100 ->
  Double.ge (Double.of_Z (min_rate v)) (Double.of_Z (max_rate v)) = true ->
  exists p, new_prob v pps = Some p /\ 0 <= p <= 100.
Proof.
  intros Hmax Hord. apply new_prob_clamped; [exact Hmax |].
  destruct (Double.gt pps (Double.of_Z (min_rate v))) eqn:Hgt;
    [right | left; reflexivity].
  unfold Double.ge, Double.gt in *.
  exact (SFleb_SFltb_trans _ _ _ Hord Hgt).
Qed.

(** With no packet between its lookup and its update, an iteration writes
    back the counters it read. *)
Lemma dynamic_tick_keeps_counters (v : cli_vars) (b b' : baseline)
  (m m' : state_map) (io : tick_io) (s : state) :
  dynamic_tick v b m io = Some (b', m') ->
  m !! key = Some s ->
  exists s', m' !! key = Some s' /\
             packet_count s' = packet_count s /\
             dropped_count s' = dropped_count s.
Proof.
  unfold dynamic_tick, tick_read, bpf_map_lookup_elem. intros H Hs.
  destruct (lookup_ok io).
  - rewrite Hs in H. unfold tick_compute in H.
    destruct (new_prob v _) as [p |]; [| discriminate].
    cbn in H. injection H as _ <-.
    unfold bpf_map_update_elem. destruct (update_ok io).
    + eexists. split.
      * apply list_lookup_insert_eq. eapply lookup_lt_Some. exact Hs.
      * split; reflexivity.
    + exists s. auto.
  - cbn in H. injection H as _ <-. exists s. auto.
Qed.

End RateMap.

(** C3 (as the code has it).  For a validated maximum, every rate [pps] and
    all thresholds:
    - [pps <= min_rate] gives 0;
    - [min_rate < pps < max_rate] gives the double-precision value of
      [((pps - min_rate) / (max_rate - min_rate)) * max_prob] with its
      fraction discarded;
    - [pps >= max_rate] gives [max_prob] provided [pps > min_rate] as well
      (the test against [min_rate] comes first).
    With thresholds 1000 and 100000 and maximum 50, the rates 1000, 50500,
    100000, 200000 and 500 give 0, 25, 50, 50 and 0. *)
Theorem C3_clamped_linear_map (v : Loader.cli_vars) (pps : Double.double) :
  0 <= Loader.max_prob v <= 100 ->
  let lo := Double.of_Z (Loader.min_rate v) in
  let hi := Double.of_Z (Loader.max_rate v) in
  (Double.ge lo pps = true -> Loader.new_prob v pps = Some 0) /\
  (Double.gt pps lo = true -> Double.gt hi pps = true ->
   Loader.new_prob v pps = Double.to_u32 (Loader.scaled v pps)) /\
  (Double.gt pps lo = true -> Double.ge pps hi = true ->
   Loader.new_prob v pps = Some (Loader.max_prob v)) /\
  (let d := Sample.dynamic 1000 100000 50 in
   Loader.new_prob d (Double.of_Z 1000) = Some 0 /\
   Loader.new_prob d (Double.of_Z 50500) = Some 25 /\
   Loader.new_prob d (Double.of_Z 100000) = Some 50 /\
   Loader.new_prob d (Double.of_Z 200000) = Some 50 /\
   Loader.new_prob d (Double.of_Z 500) = Some 0).
Proof.
  intros Hmax lo hi. unfold Loader.new_prob. fold lo hi.
  repeat split.
  - intros H. rewrite (ge_excludes_gt _ _ H). reflexivity.
  - intros H1 H2. rewrite H1, (gt_excludes_ge _ _ H2). reflexivity.
  - intros H1 H2. rewrite H1, H2. f_equal. apply u32_id.
    unfold is_u32. lia.
Qed.

Lemma C3_witness :
  let v := Sample.dynamic 1000 100000 50 in
  0 <= Loader.max_prob v <= 100 /\
  Loader.new_prob v (Loader.pps_of 75250 1000000000) =
    Double.to_u32 (Loader.scaled v (Loader.pps_of 75250 1000000000)) /\
  Loader.new_prob v (Loader.pps_of 75250 1000000000) = Some 37.
Proof.
  assert (H : 0 <= Loader.max_prob (Sample.dynamic 1000 100000 50) <= 100)
    by (cbn; lia).
  split; [exact H |]. split; [| reflexivity].
  apply (C3_clamped_linear_map (Sample.dynamic 1000 100000 50)
           (Loader.pps_of 75250 1000000000) H); reflexivity.
Defined.

(** The map of the design document differs from this one twice.
    - Thresholds are not required to be ordered.  With both thresholds at
      1000 the rate 1000 is at once [<= min_rate] and [>= max_rate]; the
      code gives 0, not the maximum 50.
    - The linear branch is evaluated in double precision.  With the default
      thresholds 1000 and 100000 and maximum 50, 58420 packets in one second
      give [57420.0 / 99000 * 50 = 28.999999999999996], published as 28,
      whereas [floor((58420 - 1000) / (100000 - 1000) * 50)] is 29. *)
Lemma C3_counterexample :
  (let v := Sample.dynamic 1000 1000 50 in
   let pps := Double.of_Z 1000 in
   Double.ge pps (Double.of_Z (Loader.max_rate v)) = true /\
   Loader.new_prob v pps = Some 0 /\
   Loader.new_prob v pps <> Some (Loader.max_prob v)) /\
  (let v := Sample.dynamic 1000 100000 50 in
   let pps := Loader.pps_of 58420 1000000000 in
   pps = Double.of_Z 58420 /\
   Double.gt pps (Double.of_Z (Loader.min_rate v)) = true /\
   Double.gt (Double.of_Z (Loader.max_rate v)) pps = true /\
   Loader.scaled v pps = S754_finite false 8162774324609023 (-48) /\
   Loader.new_prob v pps = Some 28 /\
   Sample.exact_linear v 58420 = 29 /\
   Loader.new_prob v pps <> Some (Sample.exact_linear v 58420)).
Proof. vm_compute. repeat split; discriminate. Qed.

Lemma mismatches_complete (v : Loader.cli_vars) (step : Z) (n : nat) :
  forall (from i : Z),
    0 <= i < Z.of_nat n ->
    ~ In (from + step * i) (Sample.mismatches v from step n) ->
    Sample.matches_exact v (from + step * i) = true.
Proof.
  induction n as [| n IH]; intros from i Hi Hnot.
  - cbn in Hi. lia.
  - cbn [Sample.mismatches] in Hnot.
    destruct (Z.eq_dec i 0) as [-> | Hne].
    + replace (from + step * 0) with from in * by lia.
      destruct (Sample.matches_exact v from); [reflexivity |].
      contradiction Hnot. left. reflexivity.
    + replace (from + step * i) with (from + step + step * (i - 1)) in *
        by lia.
      apply IH; [lia |].
      destruct (Sample.matches_exact v from); [exact Hnot |].
      intros Hin. apply Hnot. right. exact Hin.
Qed.

(** With the default thresholds and maximum, the exact value
    [(pps - min_rate) / (max_rate - min_rate) * max_probability] is the
    whole number [k] at the rate [1000 + 1980 * k].  The code publishes [k]
    at each of these rates strictly between the thresholds, except at 58420,
    where [k] is 29. *)
Lemma default_map_at_whole_values (k : Z) :
  1 <= k <= 49 ->
  k <> 29 ->
  Loader.new_prob (Sample.dynamic 1000 100000 50)
                  (Double.of_Z (1000 + 1980 * k)) = Some k.
Proof.
  intros Hrange Hne.
  assert (Hall : Sample.mismatches (Sample.dynamic 1000 100000 50) 2980 1980
                   49 = [58420])
    by (vm_compute; reflexivity).
  pose proof (mismatches_complete (Sample.dynamic 1000 100000 50) 1980 49
                2980 (k - 1)) as H.
  rewrite Hall in H.
  replace (2980 + 1980 * (k - 1)) with (1000 + 1980 * k) in H by lia.
  unfold Sample.matches_exact in H.
  assert (Hexact : Sample.exact_linear (Sample.dynamic 1000 100000 50)
                     (1000 + 1980 * k) = k).
  { unfold Sample.exact_linear. cbn [Loader.min_rate Loader.max_rate
      Loader.max_prob Sample.dynamic].
    replace ((1000 + 1980 * k - 1000) * 50) with (k * (100000 - 1000)) by lia.
    apply Z.div_mul. lia. }
  rewrite Hexact in H.
  destruct (Loader.new_prob (Sample.dynamic 1000 100000 50)
              (Double.of_Z (1000 + 1980 * k))) as [p |].
  - f_equal. apply Z.eqb_eq. apply H; [cbn; lia |].
    intros [Hin | []]. lia.
  - discriminate H; [cbn; lia |]. intros [Hin | []]. lia.
Qed.

(* ===================================================================== *)
(** ** The published probability *)

(** C4.  With [--mode dynamic --min-rate -9223372036854775808] validation
    succeeds ([max_prob] is the default 50) and the loop is entered.  The
    difference [max_rate - min_rate] is [2^63 + 100000], which is not a
    [long]; as a 64-bit two's-complement value it is [100000 - 2^63].  On an
    idle interface ([pps = 0]) the linear branch is taken and evaluates to
    about -50.0000000000004, whose integral part -50 is not a [__u32]: the
    cast that produces the published probability is undefined, and no value
    in [0,100] is stored. *)
Theorem C4_threshold_difference_overflow :
  let atol := fun _ : string => -9223372036854775808 in
  let rets := [Sample.mode_dynamic;
               Sample.min_rate_arg "-9223372036854775808"] in
  let v := Sample.dynamic (-9223372036854775808) 100000 50 in
  let b := Loader.mk_baseline 0 0 in
  let pps := Loader.pps_of 0 1000000000 in
  snd (Loader.main atol rets (Some "eth0"%string)
         (Sample.startup 0 0 5 fresh_map true)) =
    inr (Loader.dynamic_loop 3 v b) /\
  Loader.max_rate v - Loader.min_rate v = 2 ^ 63 + 100000 /\
  long (Loader.max_rate v - Loader.min_rate v) = 100000 - 2 ^ 63 /\
  pps = S754_zero false /\
  Loader.scaled v pps = S754_finite true 7036874417766477 (-47) /\
  Double.trunc true 7036874417766477 (-47) = -50 /\
  Loader.new_prob v pps = None /\
  Loader.dynamic_tick v b fresh_map (Loader.mk_tick true 1000000000 true) =
    None.
Proof. vm_compute. repeat split. Qed.

(* ===================================================================== *)
(** ** An iteration with no time elapsed *)

(** C1 (as the code has it).  [time_diff_ns] is an unsigned 64-bit
    difference, so it is never negative.  When it is 0 and the lookup
    succeeded, the iteration still advances the baseline to the current
    time and packet count, and still recomputes and writes the probability:
    the division is a floating-point one and does not trap.  With no new
    packet the rate is 0/0 = NaN and 0 is written; with new packets the rate
    is +infinity and [max_prob] is written. *)
Theorem C1_zero_elapsed_still_publishes
  (v : Loader.cli_vars) (b : Loader.baseline) (m : state_map)
  (current_state : state) (io : Loader.tick_io) :
  is_long (Loader.min_rate v) ->
  is_long (Loader.max_rate v) ->
  Loader.bpf_map_lookup_elem (Loader.lookup_ok io) m key = Some current_state ->
  u64 (Loader.now_ns io - Loader.last_time_ns b) = 0 ->
  let count_diff :=
    u64 (packet_count current_state - Loader.last_packet_count b) in
  let p := if count_diff =? 0 then 0 else u32 (Loader.max_prob v) in
  Loader.pps_of count_diff 0 =
    (if count_diff =? 0 then S754_nan else S754_infinity false) /\
  Loader.dynamic_tick v b m io =
    Some (Loader.mk_baseline (Loader.now_ns io) (packet_count current_state),
          Loader.bpf_map_update_elem (Loader.update_ok io) m key
            (set_drop_probability p current_state)).
Proof.
  intros Hmin Hmax Hlook Hzero count_diff p.
  assert (Hpps : Loader.pps_of count_diff 0 =
                 (if count_diff =? 0 then S754_nan else S754_infinity false)).
  { apply pps_zero_elapsed. apply u64_range. }
  split; [exact Hpps |].
  unfold Loader.dynamic_tick, Loader.tick_read. rewrite Hlook.
  unfold Loader.tick_compute. rewrite Hzero. fold count_diff. rewrite Hpps.
  subst p. destruct (count_diff =? 0).
  - rewrite new_prob_nan. reflexivity.
  - rewrite (new_prob_infinity v Hmin Hmax). reflexivity.
Qed.

Lemma C1_witness :
  let v := Sample.dynamic 1000 100000 50 in
  let b := Loader.mk_baseline 5000000000 0 in
  let m := [mk_state 10 0 0] in
  let io := Loader.mk_tick true 5000000000 true in
  u64 (Loader.now_ns io - Loader.last_time_ns b) = 0 /\
  Loader.dynamic_tick v b m io =
    Some (Loader.mk_baseline 5000000000 10, [mk_state 10 0 50]).
Proof.
  split; [reflexivity |].
  apply (C1_zero_elapsed_still_publishes
           (Sample.dynamic 1000 100000 50)
           (Loader.mk_baseline 5000000000 0) [mk_state 10 0 0]
           (mk_state 10 0 0) (Loader.mk_tick true 5000000000 true)).
  - unfold is_long. cbn. lia.
  - unfold is_long. cbn. lia.
  - reflexivity.
  - reflexivity.
Defined.

(** An iteration in which no time has elapsed since the previous one and
    ten packets have been counted: the baseline is advanced and the
    probability in the map changes from 0 to 50. *)
Lemma C1_counterexample :
  let v := Sample.dynamic 1000 100000 50 in
  let b := Loader.mk_baseline 5000000000 0 in
  let before := mk_state 10 0 0 in
  let io := Loader.mk_tick true 5000000000 true in
  u64 (Loader.now_ns io - Loader.last_time_ns b) = 0 /\
  exists b' after,
    Loader.dynamic_tick v b [before] io = Some (b', [after]) /\
    b' = Loader.mk_baseline 5000000000 10 /\
    drop_probability after = 50 /\
    drop_probability after <> drop_probability before.
Proof.
  split; [reflexivity |].
  exists (Loader.mk_baseline 5000000000 10), (mk_state 10 0 50).
  repeat split. discriminate.
Qed.

(* ===================================================================== *)
(** ** Who writes which field *)

(** C5 (the code at the failing inputs).  The slow path does write the
    counters, against the comments on [struct state] ("A counter for all
    packets seen"; only [drop_probability] is "set by user space").
    - Dynamic mode, default thresholds.  Ten packets have been accepted
      since the programs were attached, and the entry is {10, 0, 0}.  The
      first iteration reads it; one more packet, of any draw, is classified
      before the update (the entry becomes {11, 0, 0}); the update stores
      the record read at the lookup, and [packet_count] goes from 11 back
      to 10.  With no packet in between the same iteration leaves the
      counters as they are.
    - Fixed mode, [--prob 37].  Three packets have been accepted between
      the attachment of the programs and the write of line 195; the write
      stores zero in both counters and [packet_count] goes from 3 to 0. *)
Theorem C5_slow_path_overwrites_the_counters :
  (forall prandom : Z,
     let v := Sample.dynamic 1000 100000 50 in
     let b := Loader.mk_baseline 0 0 in
     let io := Loader.mk_tick true 1000000000 true in
     let m0 := snd (Traffic.run fresh_map (repeat (7, 1) 10)) in
     let m1 := Filter.map_after (Filter.handle_ingress m0 prandom) in
     m0 = [mk_state 10 0 0] /\
     Loader.tick_read v b m0 io =
       Some (Loader.mk_baseline 1000000000 10, Some (mk_state 10 0 0)) /\
     m1 = [mk_state 11 0 0] /\
     Loader.tick_write m1 io (Some (mk_state 10 0 0)) = [mk_state 10 0 0] /\
     Loader.dynamic_tick v b m0 io =
       Some (Loader.mk_baseline 1000000000 10, [mk_state 10 0 0])) /\
  (let m0 := snd (Traffic.run fresh_map [(7, 1); (12, 2); (99, 1)]) in
   let io := Sample.startup 0 0 5 m0 true in
   m0 = [mk_state 3 0 0] /\
   snd (Loader.main (fun _ => 37) [Sample.mode_fixed; Sample.prob_arg "37"]
                    (Some "eth0"%string) io) =
     inr (Loader.fixed_idle 3 [mk_state 0 0 37])).
Proof.
  split.
  - intros prandom v b io m0 m1.
    assert (H0 : m0 = [mk_state 10 0 0]) by (vm_compute; reflexivity).
    assert (H1 : m1 = [mk_state 11 0 0]).
    { subst m1. rewrite H0. unfold Filter.handle_ingress.
      destruct (handle_packet_cases [mk_state 10 0 0] (mk_state 10 0 0)
                  prandom 1 eq_refl) as [[Hlt _] | [_ ->]].
      - pose proof (draw_range prandom) as Hd. cbn in Hlt. lia.
      - reflexivity. }
    split; [exact H0 |].
    rewrite H1, H0.
    split; [vm_compute; reflexivity |].
    split; [reflexivity |].
    split; vm_compute; reflexivity.
  - vm_compute. split; reflexivity.
Qed.

(* ===================================================================== *)
(** ** The clock *)

Lemma u64_id (z : Z) : is_u64 z -> u64 z = z.
Proof. unfold is_u64, u64. intros H. apply Z.mod_small. exact H. Qed.

Lemma u64_add (a b : Z) : u64 (u64 a + u64 b) = u64 (a + b).
Proof. unfold u64. symmetry. apply Zplus_mod. Qed.

Lemma u64_sub (a b : Z) : u64 (u64 a - u64 b) = u64 (a - b).
Proof. unfold u64. symmetry. apply Zminus_mod. Qed.

Lemma u64_mul_l (a b : Z) : u64 (u64 a * b) = u64 (a * b).
Proof. unfold u64. apply Zmult_mod_idemp_l. Qed.

Lemma get_time_ns_mod (ts : Clock.timespec) :
  Clock.get_time_ns ts = u64 (Clock.nanoseconds ts).
Proof.
  unfold Clock.get_time_ns, Clock.nanoseconds.
  rewrite u64_mul_l, u64_add. reflexivity.
Qed.

(** X1.  The difference of two readings of [get_time_ns], taken as the loop
    takes it (an unsigned 64-bit subtraction), is the number of nanoseconds
    between the two instants whenever that number fits in 64 bits, even
    when a reading itself has wrapped around.  For a normalized [timespec]
    below 18446744073 seconds the reading is the instant itself. *)
Theorem X1_time_difference_is_elapsed_nanoseconds
  (earlier later : Clock.timespec) :
  0 <= Clock.nanoseconds later - Clock.nanoseconds earlier < 2 ^ 64 ->
  u64 (Clock.get_time_ns later - Clock.get_time_ns earlier) =
    Clock.nanoseconds later - Clock.nanoseconds earlier /\
  (Clock.normalized later -> Clock.tv_sec later < 18446744073 ->
   Clock.get_time_ns later = Clock.nanoseconds later).
Proof.
  intros Hd. split.
  - rewrite !get_time_ns_mod, u64_sub. apply Z.mod_small. exact Hd.
  - intros [Hs Hn] Hlt. rewrite get_time_ns_mod. apply Z.mod_small.
    unfold Clock.nanoseconds. change (2 ^ 64) with 18446744073709551616. lia.
Qed.

Lemma X1_witness :
  let earlier := Clock.mk_timespec 18446744073 709551000 in
  let later := Clock.mk_timespec 18446744074 5 in
  Clock.get_time_ns later < Clock.get_time_ns earlier /\
  u64 (Clock.get_time_ns later - Clock.get_time_ns earlier) = 290449005.
Proof.
  split; [reflexivity |].
  apply (X1_time_difference_is_elapsed_nanoseconds
           (Clock.mk_timespec 18446744073 709551000)
           (Clock.mk_timespec 18446744074 5)).
  vm_compute. split; [discriminate | reflexivity].
Defined.

(* ===================================================================== *)
(** ** The classifier, one packet and many *)

Lemma handle_packet_without_entry (m : state_map) (prandom direction : Z) :
  m !! key = None ->
  Filter.handle_packet m prandom direction = (Filter.TC_ACT_OK, m, []).
Proof. intros Hm. unfold Filter.handle_packet. rewrite Hm. reflexivity. Qed.

(** X2.  The direction passed by [handle_ingress] or [handle_egress] reaches
    the diagnostic record and nothing else: verdict and map are those of
    [handle_ingress] whatever the direction, and a record, carrying the
    direction and the probability in force, is emitted exactly when the
    packet is dropped. *)
Theorem X2_direction_only_reaches_diagnostic
  (m : state_map) (prandom direction : Z) :
  let r := Filter.handle_packet m prandom direction in
  Filter.verdict r = Filter.verdict (Filter.handle_ingress m prandom) /\
  Filter.map_after r = Filter.map_after (Filter.handle_ingress m prandom) /\
  Filter.verdict (Filter.handle_egress m prandom) =
    Filter.verdict (Filter.handle_ingress m prandom) /\
  Filter.map_after (Filter.handle_egress m prandom) =
    Filter.map_after (Filter.handle_ingress m prandom) /\
  snd r =
    match m !! key with
    | Some s =>
        if Filter.verdict r =? Filter.TC_ACT_SHOT
        then [Filter.mk_printk direction (drop_probability s)]
        else []
    | None => []
    end.
Proof.
  unfold Filter.handle_ingress, Filter.handle_egress, Filter.handle_packet.
  destruct (m !! key) as [s |]; [| repeat split].
  cbn [set_packet_count drop_probability].
  destruct (u32 prandom mod 100 <? drop_probability s); repeat split.
Qed.

(** X3.  An invocation of the classifier touches only the entry of key 0
    and, there, only the counters: the map keeps its length, every other
    entry and the probability, and records whose fields are within their C
    types stay so. *)
Theorem X3_classifier_frame (m : state_map) (prandom direction : Z) :
  let m' := Filter.map_after (Filter.handle_packet m prandom direction) in
  length m' = length m /\
  (forall i : nat, i <> key -> m' !! i = m !! i) /\
  drop_probability <$> (m' !! key) = drop_probability <$> (m !! key) /\
  (Forall wf_state m -> Forall wf_state m') /\
  (declared m -> declared m').
Proof.
  intros m'. subst m'.
  destruct (m !! key) as [s |] eqn:Hm.
  - pose proof (key_in_range m s Hm) as Hlen.
    assert (Hshape : exists s',
               Filter.map_after (Filter.handle_packet m prandom direction) =
                 <[key := s']> m /\
               drop_probability s' = drop_probability s /\
               (wf_state s -> wf_state s')).
    { destruct (handle_packet_cases m s prandom direction Hm)
        as [[_ ->] | [_ ->]]; eexists; (split; [reflexivity |]);
        (split; [reflexivity |]);
        intros (Hp & Hd & Hpr); unfold wf_state; cbn;
        (split; [apply u64_range |]);
        (split; [apply u64_range || exact Hd | exact Hpr]). }
    destruct Hshape as (s' & -> & Hprob & Hwf).
    repeat split.
    + apply length_insert.
    + intros i Hi. apply list_lookup_insert_ne. congruence.
    + replace (<[key := s']> m !! key) with (Some s')
        by (symmetry; apply list_lookup_insert_eq; exact Hlen).
      cbn. congruence.
    + intros Hall. apply Forall_insert; [exact Hall |].
      apply Hwf. eapply Forall_lookup_1; eassumption.
    + unfold declared. intros H.
      etransitivity; [apply length_insert | exact H].
  - rewrite (handle_packet_without_entry m prandom direction Hm).
    cbn. rewrite Hm. repeat split; auto.
Qed.

Lemma hits_cons (prob : Z) (p : Traffic.packet) (ps : list Traffic.packet) :
  Traffic.hits prob (p :: ps) =
    (if Traffic.hit prob p then 1 else 0) + Traffic.hits prob ps.
Proof.
  unfold Traffic.hits. rewrite filter_cons.
  destruct (decide (Traffic.hit prob p = true)) as [H | H].
  - rewrite H, length_cons, Nat2Z.inj_succ, Z.add_1_l. reflexivity.
  - destruct (Traffic.hit prob p); [congruence | reflexivity].
Qed.

(** One packet through the one-entry map. *)
Lemma classify_declared (s : state) (p : Traffic.packet) :
  let h := Traffic.hit (drop_probability s) p in
  Filter.verdict (Traffic.classify [s] p) =
    (if h then Filter.TC_ACT_SHOT else Filter.TC_ACT_OK) /\
  Filter.map_after (Traffic.classify [s] p) =
    [mk_state (u64 (packet_count s + 1))
              (if h then u64 (dropped_count s + 1) else dropped_count s)
              (drop_probability s)].
Proof.
  unfold Traffic.classify, Traffic.hit, Filter.handle_packet.
  cbn [lookup list_lookup key set_packet_count drop_probability].
  destruct (u32 p.1 mod 100 <? drop_probability s); split; reflexivity.
Qed.

Lemma u64_add_l (a b : Z) : u64 (u64 a + b) = u64 (a + b).
Proof. unfold u64. apply Zplus_mod_idemp_l. Qed.

(** A stream of packets through the one-entry map, in closed form. *)
Lemma run_on_declared_map (s : state) (ps : list Traffic.packet) :
  wf_state s ->
  Traffic.run [s] ps =
    (map (fun p => if Traffic.hit (drop_probability s) p
                   then Filter.TC_ACT_SHOT else Filter.TC_ACT_OK) ps,
     [mk_state (u64 (packet_count s + Z.of_nat (length ps)))
               (u64 (dropped_count s + Traffic.hits (drop_probability s) ps))
               (drop_probability s)]).
Proof.
  revert s. induction ps as [| p ps IH]; intros s (Hpc & Hdc & Hpr).
  - cbn. unfold Traffic.hits. cbn. rewrite !Z.add_0_r.
    unfold u64. rewrite !Z.mod_small by assumption.
    destruct s; reflexivity.
  - cbn [Traffic.run].
    destruct (classify_declared s p) as [-> ->].
    set (h := Traffic.hit (drop_probability s) p).
    set (s1 := mk_state _ _ _).
    assert (Hwf1 : wf_state s1).
    { subst s1. unfold wf_state. cbn. split; [apply u64_range |].
      split; [| exact Hpr]. destruct h; [apply u64_range | exact Hdc]. }
    rewrite (IH s1 Hwf1). subst s1. cbn [packet_count dropped_count
      drop_probability map]. fold h.
    f_equal. f_equal. rewrite hits_cons. fold h.
    f_equal.
    + rewrite u64_add_l. f_equal. cbn [length]. lia.
    + destruct h.
      * rewrite u64_add_l. f_equal. lia.
      * f_equal.
Qed.

(** X4.  After any number of packets through the declared map, starting
    from a record within its C types, [packet_count] has grown by the
    number of packets and [dropped_count] by the number of packets whose
    draw was below the probability (both modulo [2^64]); the probability is
    untouched, and the verdicts are Drop exactly for those packets. *)
Theorem X4_counters_after_a_stream (s : state) (ps : list Traffic.packet) :
  wf_state s ->
  Traffic.run [s] ps =
    (map (fun p => if Traffic.hit (drop_probability s) p
                   then Filter.TC_ACT_SHOT else Filter.TC_ACT_OK) ps,
     [mk_state (u64 (packet_count s + Z.of_nat (length ps)))
               (u64 (dropped_count s + Traffic.hits (drop_probability s) ps))
               (drop_probability s)]).
Proof. exact (run_on_declared_map s ps). Qed.

Lemma X4_witness :
  let s := mk_state 18446744073709551615 7 30 in
  let ps := [(129, 1); (4294967295, 2); (250, 1)] in
  wf_state s /\
  Traffic.run [s] ps =
    ([Filter.TC_ACT_SHOT; Filter.TC_ACT_OK; Filter.TC_ACT_OK],
     [mk_state 2 8 30]).
Proof.
  assert (H : wf_state (mk_state 18446744073709551615 7 30))
    by (unfold wf_state, is_u64, is_u32; cbn; lia).
  split; [exact H |].
  exact (X4_counters_after_a_stream (mk_state 18446744073709551615 7 30)
           [(129, 1); (4294967295, 2); (250, 1)] H).
Defined.

(** X5.  The map after a stream of packets does not depend on the order in
    which the packets arrived, nor on their directions. *)
Theorem X5_arrival_order_is_immaterial
  (s : state) (ps ps' : list Traffic.packet) :
  wf_state s ->
  ps.*1 ≡ₚ ps'.*1 ->
  snd (Traffic.run [s] ps) = snd (Traffic.run [s] ps').
Proof.
  intros Hwf Hperm.
  rewrite (run_on_declared_map s ps Hwf),
          (run_on_declared_map s ps' Hwf).
  cbn [snd].
  assert (Hlen : length ps = length ps').
  { transitivity (length (ps.*1)); [symmetry; apply length_fmap |].
    transitivity (length (ps'.*1)); [| apply length_fmap].
    apply Permutation_length. exact Hperm. }
  assert (Hhits : forall qs : list Traffic.packet,
             Traffic.hits (drop_probability s) qs =
             Z.of_nat (length (filter
               (fun r => (u32 r mod 100 <? drop_probability s) = true)
               (qs.*1)))).
  { intros qs. unfold Traffic.hits. f_equal.
    induction qs as [| q qs IH]; [reflexivity |].
    rewrite fmap_cons, !filter_cons. unfold Traffic.hit at 1.
    destruct (decide ((u32 q.1 mod 100 <? drop_probability s) = true));
      cbn [length]; rewrite IH; reflexivity. }
  rewrite !Hhits, Hlen, Hperm. reflexivity.
Qed.

Lemma X5_witness :
  let s := mk_state 10 2 30 in
  wf_state s /\
  snd (Traffic.run [s] [(129, 1); (7, 2); (250, 1)]) =
  snd (Traffic.run [s] [(250, 2); (129, 2); (7, 1)]).
Proof.
  assert (H : wf_state (mk_state 10 2 30))
    by (unfold wf_state, is_u64, is_u32; cbn; lia).
  split; [exact H |].
  apply (X5_arrival_order_is_immaterial (mk_state 10 2 30)
           [(129, 1); (7, 2); (250, 1)] [(250, 2); (129, 2); (7, 1)] H).
  cbn. symmetry. apply (Permutation_cons_append [129; 7] 250).
Defined.

(** X6.  A probability of 100 or more, in range or not, drops every packet
    of a stream and counts each of them as dropped; a probability of 0 drops
    none and leaves [dropped_count] as it was. *)
Theorem X6_extreme_probabilities (s : state) (ps : list Traffic.packet) :
  wf_state s ->
  (100 <= drop_probability s ->
   Traffic.run [s] ps =
     (map (fun _ => Filter.TC_ACT_SHOT) ps,
      [mk_state (u64 (packet_count s + Z.of_nat (length ps)))
                (u64 (dropped_count s + Z.of_nat (length ps)))
                (drop_probability s)])) /\
  (drop_probability s = 0 ->
   Traffic.run [s] ps =
     (map (fun _ => Filter.TC_ACT_OK) ps,
      [mk_state (u64 (packet_count s + Z.of_nat (length ps)))
                (dropped_count s) 0])).
Proof.
  intros Hwf.
  assert (Hall : forall b : bool,
             (forall p, Traffic.hit (drop_probability s) p = b) ->
             map (fun p => if Traffic.hit (drop_probability s) p
                           then Filter.TC_ACT_SHOT else Filter.TC_ACT_OK) ps =
               map (fun _ => if b then Filter.TC_ACT_SHOT
                             else Filter.TC_ACT_OK) ps /\
             Traffic.hits (drop_probability s) ps =
               if b then Z.of_nat (length ps) else 0).
  { intros b Hb. induction ps as [| p ps [IH1 IH2]].
    - split; [reflexivity |]. destruct b; reflexivity.
    - split.
      + cbn [map]. rewrite IH1, Hb. reflexivity.
      + rewrite hits_cons, IH2, Hb, length_cons, Nat2Z.inj_succ.
        destruct b; lia. }
  rewrite (run_on_declared_map s ps Hwf).
  split; intros Hp.
  - destruct (Hall true) as [-> ->]; [| reflexivity].
    intros p. unfold Traffic.hit. apply Z.ltb_lt.
    pose proof (draw_range p.1). lia.
  - destruct (Hall false) as [-> ->].
    + intros p. unfold Traffic.hit. apply Z.ltb_ge.
      pose proof (draw_range p.1). lia.
    + rewrite Z.add_0_r, Hp. destruct Hwf as (_ & Hdc & _).
      unfold u64 at 2. rewrite Z.mod_small by exact Hdc. reflexivity.
Qed.

Lemma X6_witness :
  let s := mk_state 5 1 4294967246 in
  wf_state s /\
  Traffic.run [s] [(0, 1); (99, 2)] =
    ([Filter.TC_ACT_SHOT; Filter.TC_ACT_SHOT], [mk_state 7 3 4294967246]).
Proof.
  assert (H : wf_state (mk_state 5 1 4294967246))
    by (unfold wf_state, is_u64, is_u32; cbn; lia).
  split; [exact H |].
  apply (proj1 (X6_extreme_probabilities (mk_state 5 1 4294967246)
                  [(0, 1); (99, 2)] H)).
  cbn. lia.
Defined.

(* ===================================================================== *)
(** ** Start-up, from the command line to the loops *)

Section StartupOutcomes.
Import Loader Cli Env.

Variable atol : string -> Z.

(** The outcomes of [attach], in the order of its steps. *)
Lemma attach_outcomes (io : startup_io) (name : string) :
  let k := if_nametoindex io in
  (attachable io /\ attach io name = (attached_trace name k, inr k)) \/
  (exists t, attach io name = (t, inl 1) /\
             forallb (fun e => negb (is_attachment e)) t = true /\
             forallb (fun e => negb (is_hook_destroy e)) t = true) \/
  (exists t, attach io name = (t, inl 0) /\
             last t = Some (ev_hook_destroy k) /\
             In (ev_attach_ingress k) t /\
             ~ attachable io).
Proof.
  intros k. subst k. unfold attach, attachable, attached_trace. cbn.
  destruct (Z.eqb_spec (if_nametoindex io) 0) as [E0 | E0];
    [right; left; eexists; repeat split |].
  destruct (open_error io) eqn:E1;
    [right; left; eexists; repeat split |].
  destruct (Z.eqb_spec (load_ret io) 0) as [E2 | E2];
    [| right; left; eexists; repeat split].
  destruct (ing_prog io) eqn:E3;
    [| right; left; eexists; repeat split].
  destruct (eg_prog io) eqn:E4;
    [| right; left; eexists; repeat split].
  assert (Hc : (negb (hook_create_ret io =? 0) &&
                negb (hook_create_ret io =? - EEXIST)) = false <->
               (hook_create_ret io = 0 \/ hook_create_ret io = - EEXIST)).
  { destruct (Z.eqb_spec (hook_create_ret io) 0);
      destruct (Z.eqb_spec (hook_create_ret io) (- EEXIST)); cbn;
      intuition congruence. }
  destruct (negb (hook_create_ret io =? 0) &&
            negb (hook_create_ret io =? - EEXIST)) eqn:E5;
    [right; left; eexists; repeat split |].
  apply proj1 in Hc. specialize (Hc eq_refl).
  cbn.
  destruct (Z.eqb_spec (attach_ingress_ret io) 0) as [E6 | E6]; cbn.
  2:{ right; right. eexists. split; [reflexivity |].
      split; [reflexivity |]. split; [cbn; tauto |]. tauto. }
  destruct (Z.eqb_spec (attach_egress_ret io) 0) as [E7 | E7]; cbn.
  2:{ right; right. eexists. split; [reflexivity |].
      split; [reflexivity |]. split; [cbn; tauto |]. tauto. }
  destruct (Z.ltb_spec (map_fd io) 0) as [E8 | E8]; cbn.
  { right; right. eexists. split; [reflexivity |].
    split; [reflexivity |]. split; [cbn; tauto |]. intros H. lia. }
  left. split; [| reflexivity]. repeat split; assumption.
Qed.

Lemma validate_outcomes (v : cli_vars) (ifname : option string) :
  (exists md name, validate v ifname = ([], inr (md, name)) /\
                   mode v = Some md /\ ifname = Some name) \/
  (exists t, validate v ifname = (t, inl 1) /\ only_reports t).
Proof.
  unfold validate. destruct (mode v) as [md |];
    [| right; eexists; split; [reflexivity | apply reports_2]].
  assert (Hif : forall c : proc unit,
             c = ([], inr tt) ->
             (exists md' name,
                bind c (fun _ => match ifname with
                                 | Some name => ret (md, name)
                                 | None => bind (fprintf msg_interface_required)
                                             (fun _ => bind usage
                                                (fun _ => exit 1))
                                 end) = ([], inr (md', name)) /\
                Some md = Some md' /\ ifname = Some name) \/
             (exists t,
                bind c (fun _ => match ifname with
                                 | Some name => ret (md, name)
                                 | None => bind (fprintf msg_interface_required)
                                             (fun _ => bind usage
                                                (fun _ => exit 1))
                                 end) = (t, inl 1) /\ only_reports t)).
  { intros c ->. destruct ifname as [name |].
    - left. exists md, name. repeat split.
    - right. eexists. split; [reflexivity | apply reports_2]. }
  destruct md.
  - destruct ((max_prob v <? 0) || (100 <? max_prob v)).
    + right. eexists. split; [reflexivity | apply reports_1].
    + apply Hif. reflexivity.
  - destruct (prob v =? -1).
    + right. eexists. split; [reflexivity | apply reports_2].
    + destruct ((prob v <? 0) || (100 <? prob v)).
      * right. eexists. split; [reflexivity | apply reports_1].
      * apply Hif. reflexivity.
Qed.

Lemma getopt_loop_outcomes (rets : list getopt_ret) :
  (exists v, getopt_loop atol rets cli_init = ([], inr v)) \/
  (exists t, getopt_loop atol rets cli_init = (t, inl 1) /\ only_reports t).
Proof.
  pose proof (getopt_loop_inv atol rets cli_init None None None
                (agrees_init atol)) as H.
  destruct (getopt_loop atol rets cli_init) as [t [code | v]].
  - destruct H as [-> Hrep]. right. eauto.
  - destruct H as [-> _]. left. eauto.
Qed.

Lemma reports_touch_nothing (t : list event) :
  only_reports t ->
  forallb (fun e => negb (is_attachment e)) t = true /\
  forallb (fun e => negb (is_hook_destroy e)) t = true.
Proof.
  intros [_ Hall]. induction Hall as [| e t [msg ->] _ [IH1 IH2]].
  - split; reflexivity.
  - cbn. rewrite IH1, IH2. split; reflexivity.
Qed.

(** [main] once the command line has been accepted. *)
Lemma main_after_validation (rets : list getopt_ret) (ifname : option string)
  (io : startup_io) (v : cli_vars) (md : operating_mode) (name : string) :
  getopt_loop atol rets cli_init = ([], inr v) ->
  validate v ifname = ([], inr (md, name)) ->
  main atol rets ifname io =
    bind (attach io name)
         (fun ifindex_g =>
            match md with
            | MODE_FIXED => fixed_mode io ifindex_g v
            | MODE_DYNAMIC =>
                ret (dynamic_loop ifindex_g v
                       (mk_baseline (start_time_ns io) 0))
            end).
Proof.
  intros Hg Hv. unfold main. rewrite Hg, bind_ret_nil, Hv, bind_ret_nil.
  reflexivity.
Qed.

(** Every way [main] can go. *)
Lemma main_outcomes (rets : list getopt_ret) (ifname : option string)
  (io : startup_io) :
  let k := if_nametoindex io in
  let r := main atol rets ifname io in
  (exists t, r = (t, inl 1) /\ only_reports t) \/
  (exists t, r = (t, inl 1) /\
             forallb (fun e => negb (is_attachment e)) t = true /\
             forallb (fun e => negb (is_hook_destroy e)) t = true) \/
  (exists t, r = (t, inl 0) /\ last t = Some (ev_hook_destroy k) /\
             In (ev_attach_ingress k) t) \/
  (exists v name,
     getopt_loop atol rets cli_init = ([], inr v) /\
     ifname = Some name /\ attachable io /\
     ((mode v = Some MODE_DYNAMIC /\
       r = (attached_trace name k,
            inr (dynamic_loop k v (mk_baseline (start_time_ns io) 0)))) \/
      (mode v = Some MODE_FIXED /\
       fixed_update_ok io = true /\ (key < length (map_at_write io))%nat /\
       r = (attached_trace name k ++ [ev_map_update (fixed_state v)],
            inr (fixed_idle k
                   (<[key := fixed_state v]> (map_at_write io))))))).
Proof.
  intros k r. subst r.
  destruct (getopt_loop_outcomes rets) as [[v Hg] | (t & Hg & Hrep)].
  2:{ left. exists t. split; [| exact Hrep].
      unfold main. rewrite Hg. reflexivity. }
  destruct (validate_outcomes v ifname)
    as [(md & name & Hv & Hmd & Hif) | (t & Hv & Hrep)].
  2:{ left. exists t. split; [| exact Hrep].
      unfold main. rewrite Hg, bind_ret_nil, Hv. reflexivity. }
  rewrite (main_after_validation rets ifname io v md name Hg Hv).
  destruct (attach_outcomes io name)
    as [[Hok ->] | [(t & -> & Hna & Hnd) | (t & -> & Hlast & Hin & _)]].
  - fold k. destruct md.
    + right; right; right. exists v, name.
      split; [exact Hg |]. split; [exact Hif |]. split; [exact Hok |].
      left. split; [exact Hmd |]. cbn. reflexivity.
    + unfold fixed_mode, bpf_map_update_elem.
      destruct (fixed_update_ok io) eqn:Eu;
        [destruct (Nat.ltb_spec key (length (map_at_write io))) as [El | El] |].
      * right; right; right. exists v, name.
        split; [exact Hg |]. split; [exact Hif |]. split; [exact Hok |].
        right. split; [exact Hmd |]. split; [reflexivity |].
        split; [exact El |]. cbn. reflexivity.
      * right; right; left. eexists. split; [reflexivity |].
        split; [reflexivity |]. cbn. tauto.
      * right; right; left. eexists. split; [reflexivity |].
        split; [reflexivity |]. cbn. tauto.
  - right; left. exists t. split; [reflexivity |]. split; assumption.
  - right; right; left. exists t. split; [reflexivity |]. split; assumption.
Qed.

End StartupOutcomes.

Section StartupProperties.
Import Loader Cli Env.

(** X7.  Whenever [main] reaches one of its loops, the interface was found,
    the object opened and loaded, the hook created (or already there), both
    programs attached, in that order, and only then the handlers installed;
    nothing was closed or destroyed.  In dynamic mode the map has not been
    written; in fixed mode it has been written exactly once, last.  From
    there an interruption destroys the hook of that same interface and ends
    the process with status 0. *)
Theorem X7_loops_are_reached_fully_attached
  (atol : string -> Z) (rets : list getopt_ret) (ifname : option string) (io : startup_io)
  (t : list event) (r : running) :
  main atol rets ifname io = (t, inr r) ->
  exists name v,
    ifname = Some name /\
    attachable io /\
    on_signal r = ([ev_hook_destroy (if_nametoindex io)], inl 0) /\
    ((t = attached_trace name (if_nametoindex io) /\
      r = dynamic_loop (if_nametoindex io) v
            (mk_baseline (start_time_ns io) 0)) \/
     (t = attached_trace name (if_nametoindex io) ++
          [ev_map_update (fixed_state v)] /\
      r = fixed_idle (if_nametoindex io)
            (<[key := fixed_state v]> (map_at_write io)))).
Proof.
  intros H.
  destruct (main_outcomes atol rets ifname io)
    as [(t' & H' & _) | [(t' & H' & _) | [(t' & H' & _) |
        (v & name & _ & Hif & Hok & Hmode)]]];
    try (rewrite H in H'; discriminate H').
  exists name, v. split; [exact Hif |]. split; [exact Hok |].
  destruct Hmode as [[_ H'] | (_ & _ & _ & H')];
    rewrite H in H'; injection H' as -> ->.
  - split; [reflexivity |]. left. split; reflexivity.
  - split; [reflexivity |]. right. split; reflexivity.
Qed.

Lemma X7_witness :
  let io := Sample.startup 0 0 5 fresh_map true in
  let rets := [Sample.mode_dynamic] in
  main (fun _ => 0) rets (Some "eth0"%string) io =
    (attached_trace "eth0" 3,
     inr (dynamic_loop 3 cli_init_dynamic (mk_baseline 0 0))) /\
  attachable io.
Proof.
  assert (H : main (fun _ => 0) [Sample.mode_dynamic] (Some "eth0"%string)
                (Sample.startup 0 0 5 fresh_map true) =
              (attached_trace "eth0" 3,
               inr (dynamic_loop 3 cli_init_dynamic (mk_baseline 0 0))))
    by reflexivity.
  split; [exact H |].
  destruct (X7_loops_are_reached_fully_attached _ _ _ _ _ _ H)
    as (name & v & _ & Hok & _).
  exact Hok.
Defined.

(** X8.  [main] ends with status 1 only before any program is attached and
    without destroying the hook; it ends with status 0 only after the
    ingress attachment was attempted, and then its last act was to destroy
    the hook.  No other status is returned. *)
Theorem X8_exit_status_tells_how_far_main_got
  (atol : string -> Z) (rets : list getopt_ret) (ifname : option string) (io : startup_io)
  (t : list event) (code : Z) :
  main atol rets ifname io = (t, inl code) ->
  (code = 1 /\
   forallb (fun e => negb (is_attachment e)) t = true /\
   forallb (fun e => negb (is_hook_destroy e)) t = true) \/
  (code = 0 /\
   last t = Some (ev_hook_destroy (if_nametoindex io)) /\
   In (ev_attach_ingress (if_nametoindex io)) t).
Proof.
  intros H.
  destruct (main_outcomes atol rets ifname io)
    as [(t' & H' & Hrep) | [(t' & H' & Hna & Hnd) | [(t' & H' & Hl & Hin) |
        (v & name & _ & _ & _ & [[_ H'] | (_ & _ & _ & H')])]]];
    rewrite H in H'; try discriminate H'; injection H' as -> ->.
  - left. split; [reflexivity |]. apply reports_touch_nothing. exact Hrep.
  - left. auto.
  - right. auto.
Qed.

Lemma X8_witness :
  let io := Sample.startup 0 (-1) 5 fresh_map true in
  exists t,
    main (fun _ => 0) [Sample.mode_dynamic] (Some "eth0"%string) io =
      (t, inl 0) /\
    last t = Some (ev_hook_destroy 3) /\ In (ev_attach_ingress 3) t.
Proof.
  eexists. split; [reflexivity |].
  destruct (X8_exit_status_tells_how_far_main_got
              (fun _ => 0) [Sample.mode_dynamic] (Some "eth0"%string)
              (Sample.startup 0 (-1) 5 fresh_map true) _ 0 eq_refl)
    as [[H _] | (_ & Hl & Hin)]; [discriminate H |].
  split; [exact Hl | exact Hin].
Defined.

Lemma getopt_loop_usage (atol : string -> Z) (rets : list getopt_ret) :
  forall v : cli_vars,
    existsb asks_usage rets = true ->
    exists t, getopt_loop atol rets v = (t, inl 1).
Proof.
  induction rets as [| o rest IH]; intros v Hex; [discriminate Hex |].
  cbn [existsb] in Hex. cbn [getopt_loop]. unfold asks_usage in Hex at 1.
  destruct (opt o =? 0).
  - cbn in Hex.
    destruct (String.eqb "mode" (long_name o)); [| apply IH; exact Hex].
    destruct (String.eqb "dynamic" (optarg o)); [apply IH; exact Hex |].
    destruct (String.eqb "fixed" (optarg o)); [apply IH; exact Hex |].
    eexists. reflexivity.
  - destruct (opt o =? chr "p"); [apply IH; exact Hex |].
    destruct (opt o =? chr "P"); [apply IH; exact Hex |].
    destruct (opt o =? chr "m"); [apply IH; exact Hex |].
    destruct (opt o =? chr "M"); [apply IH; exact Hex |].
    eexists. reflexivity.
Qed.

(** X9.  A [-h], or any option that [getopt_long] reports and the [switch]
    does not name, anywhere on the command line ends [main] with status 1
    after output on standard error only, whatever the other options, the
    interface and the environment. *)
Theorem X9_help_or_unknown_option_stops_main
  (atol : string -> Z) (rets : list getopt_ret) (ifname : option string)
  (io : startup_io) :
  existsb asks_usage rets = true ->
  exit_status (main atol rets ifname io) = Some 1 /\
  only_reports (trace (main atol rets ifname io)).
Proof.
  intros Hex.
  destruct (getopt_loop_usage atol rets cli_init Hex) as [t Ht].
  destruct (getopt_loop_outcomes atol rets) as [[v Hv] | (t' & Ht' & Hrep)].
  - rewrite Ht in Hv. discriminate Hv.
  - unfold main. rewrite Ht'. cbn. split; [reflexivity | exact Hrep].
Qed.

Lemma X9_witness :
  let rets := [Sample.mode_fixed; Sample.prob_arg "37";
               mk_getopt (chr "h") "help" ""] in
  let io := Sample.startup 0 0 5 fresh_map true in
  existsb asks_usage rets = true /\
  exit_status (main (fun _ => 37) rets (Some "eth0"%string) io) = Some 1.
Proof.
  split; [reflexivity |].
  apply (X9_help_or_unknown_option_stops_main (fun _ => 37)
           [Sample.mode_fixed; Sample.prob_arg "37";
            mk_getopt (chr "h") "help" ""]
           (Some "eth0"%string) (Sample.startup 0 0 5 fresh_map true)).
  reflexivity.
Defined.

(** X10.  Without an interface name [main] ends with status 1 after output
    on standard error only, for every command line and environment. *)
Theorem X10_interface_name_is_required
  (atol : string -> Z) (rets : list getopt_ret) (io : startup_io) :
  exit_status (main atol rets None io) = Some 1 /\
  only_reports (trace (main atol rets None io)).
Proof.
  unfold main.
  destruct (getopt_loop_outcomes atol rets) as [[v ->] | (t & -> & Hrep)].
  - rewrite bind_ret_nil.
    destruct (validate_outcomes v None)
      as [(md & name & _ & _ & Hif) | (t & -> & Hrep)]; [discriminate Hif |].
    cbn. split; [reflexivity | exact Hrep].
  - cbn. split; [reflexivity | exact Hrep].
Qed.

(** X11.  A hook that already exists is no failure: [main] behaves under a
    return of [-EEXIST] from [bpf_tc_hook_create] exactly as under a return
    of 0.  Any other non-zero return, once the interface and both programs
    have been found, ends the attachment with status 1 after closing the
    object, with no program attached and the hook left alone. *)
Theorem X11_existing_hook_is_accepted
  (atol : string -> Z) (rets : list getopt_ret) (ifname : option string)
  (name : string) (io : startup_io) (ret : Z) :
  main atol rets ifname (with_hook_create_ret (- EEXIST) io) =
  main atol rets ifname (with_hook_create_ret 0 io) /\
  (ret <> 0 -> ret <> - EEXIST ->
   if_nametoindex io <> 0 -> open_error io = false -> load_ret io = 0 ->
   ing_prog io = true -> eg_prog io = true ->
   attach (with_hook_create_ret ret io) name =
     ([ev_if_nametoindex name; ev_object_open; ev_object_load;
       ev_hook_create (if_nametoindex io);
       ev_stderr (msg_hook_create ret); ev_object_close], inl 1)).
Proof.
  split; [reflexivity |].
  intros H0 H17 Hif Hopen Hload Hing Heg.
  unfold attach, with_hook_create_ret. cbn.
  rewrite Hopen, Hload, Hing, Heg.
  destruct (Z.eqb_spec (if_nametoindex io) 0); [contradiction |].
  destruct (Z.eqb_spec ret 0); [contradiction |].
  destruct (Z.eqb_spec ret (- EEXIST)); [contradiction |].
  reflexivity.
Qed.

Lemma X11_witness :
  let io := Sample.startup 0 0 5 fresh_map true in
  attach (with_hook_create_ret (-1) io) "eth0" =
    ([ev_if_nametoindex "eth0"; ev_object_open; ev_object_load;
      ev_hook_create 3; ev_stderr (msg_hook_create (-1)); ev_object_close],
     inl 1).
Proof.
  apply (proj2 (X11_existing_hook_is_accepted (fun _ => 0) [] None "eth0"
                  (Sample.startup 0 0 5 fresh_map true) (-1)));
    (discriminate || reflexivity).
Defined.

Lemma mode_named_fixed (arg : string) :
  mode_named arg = Some MODE_FIXED -> arg = "fixed"%string.
Proof.
  unfold mode_named. destruct (String.eqb "dynamic" arg); [discriminate |].
  destruct (String.eqb_spec "fixed" arg) as [<- | _];
    [reflexivity | discriminate].
Qed.

Lemma mode_named_dynamic (arg : string) :
  mode_named arg = Some MODE_DYNAMIC -> arg = "dynamic"%string.
Proof.
  unfold mode_named. destruct (String.eqb_spec "dynamic" arg) as [<- | _];
    [reflexivity |].
  destruct (String.eqb "fixed" arg); discriminate.
Qed.

(** The map [main] leaves behind when it idles in fixed mode. *)
Lemma fixed_idle_map
  (atol : string -> Z) (rets : list getopt_ret) (ifname : option string)
  (io : startup_io) (t : list event) (ifindex : Z) (m' : state_map) :
  main atol rets ifname io = (t, inr (fixed_idle ifindex m')) ->
  exists arg,
    selected_mode rets None = Some "fixed"%string /\
    last_arg "p" rets None = Some arg /\
    0 <= atol arg <= 100 /\
    (key < length (map_at_write io))%nat /\
    m' = <[key := mk_state 0 0 (atol arg)]> (map_at_write io).
Proof.
  intros H.
  destruct (main_outcomes atol rets ifname io)
    as [(t' & H' & _) | [(t' & H' & _) | [(t' & H' & _) |
        (v & name & Hg & Hif & _ & [[_ H'] | (Hmd & _ & Hlen & H')])]]];
    rewrite H in H'; try discriminate H'.
  injection H' as -> -> ->.
  pose proof (getopt_loop_inv atol rets cli_init None None None
                (agrees_init atol)) as Hinv.
  rewrite Hg in Hinv. destruct Hinv as [_ (Hm & Hp & _)].
  destruct (validate_outcomes v ifname)
    as [(md & name' & Hv & Hmd' & _) | (t' & Hv & _)].
  2:{ unfold main in H. rewrite Hg, bind_ret_nil, Hv in H. discriminate H. }
  assert (md = MODE_FIXED) by congruence. subst md.
  apply validate_ok in Hv as [_ Hrange].
  destruct (selected_mode rets None) as [a |]; [| rewrite Hmd in Hm;
    discriminate Hm].
  rewrite Hmd in Hm. symmetry in Hm. apply mode_named_fixed in Hm. subst a.
  destruct (last_arg "p" rets None) as [arg |]; [| lia].
  exists arg. split; [reflexivity |]. split; [reflexivity |].
  rewrite <- Hp. split; [exact Hrange |]. split; [exact Hlen |].
  unfold fixed_state. rewrite u32_id by (unfold is_u32; lia). reflexivity.
Qed.

(** X12.  When [main] idles in fixed mode, the last [--mode] of the command
    line was [fixed], a [--prob] was given, the value of the last one lies
    in [0,100], and entry 0 of the map holds that value next to two zeroed
    counters; the other entries are as they were. *)
Theorem X12_fixed_mode_publishes_the_last_prob
  (atol : string -> Z) (rets : list getopt_ret) (ifname : option string)
  (io : startup_io) (t : list event) (ifindex : Z) (m' : state_map) :
  main atol rets ifname io = (t, inr (fixed_idle ifindex m')) ->
  exists arg,
    selected_mode rets None = Some "fixed"%string /\
    last_arg "p" rets None = Some arg /\
    0 <= atol arg <= 100 /\
    m' !! key = Some (mk_state 0 0 (atol arg)) /\
    forall i : nat, i <> key -> m' !! i = map_at_write io !! i.
Proof.
  intros H.
  destruct (fixed_idle_map atol rets ifname io t ifindex m' H)
    as (arg & Hsel & Hlast & Hrange & Hlen & ->).
  exists arg. split; [exact Hsel |]. split; [exact Hlast |].
  split; [exact Hrange |]. split.
  - apply list_lookup_insert_eq. exact Hlen.
  - intros i Hi. apply list_lookup_insert_ne. congruence.
Qed.

Lemma X12_witness :
  let rets := [Sample.mode_dynamic; Sample.prob_arg "5"; Sample.mode_fixed;
               Sample.prob_arg "37"] in
  let io := Sample.startup 0 0 5 [mk_state 9 9 9] true in
  exists t m',
    main (fun _ => 37) rets (Some "eth0"%string) io =
      (t, inr (fixed_idle 3 m')) /\
    m' !! key = Some (mk_state 0 0 37).
Proof.
  eexists. eexists. split; [reflexivity |].
  destruct (X12_fixed_mode_publishes_the_last_prob (fun _ => 37)
              [Sample.mode_dynamic; Sample.prob_arg "5"; Sample.mode_fixed;
               Sample.prob_arg "37"]
              (Some "eth0"%string)
              (Sample.startup 0 0 5 [mk_state 9 9 9] true) _ 3 _ eq_refl)
    as (arg & _ & _ & _ & Hm & _).
  exact Hm.
Defined.

(** The thresholds at the end of the option loop are those of the last
    [--min-rate] and [--max-rate]. *)
Lemma getopt_loop_rates (atol : string -> Z) (rets : list getopt_ret) :
  forall (v v' : cli_vars) (lo hi : option string) (t : list event),
    min_rate v =
      match lo with None => DEFAULT_MIN_RATE_PPS | Some a => atol a end ->
    max_rate v =
      match hi with None => DEFAULT_MAX_RATE_PPS | Some a => atol a end ->
    getopt_loop atol rets v = (t, inr v') ->
    min_rate v' =
      match last_arg "m" rets lo with
      | None => DEFAULT_MIN_RATE_PPS | Some a => atol a end /\
    max_rate v' =
      match last_arg "M" rets hi with
      | None => DEFAULT_MAX_RATE_PPS | Some a => atol a end.
Proof.
  induction rets as [| o rest IH]; intros v v' lo hi t Hlo Hhi H.
  - cbn in H. injection H as _ <-. cbn. auto.
  - cbn [getopt_loop] in H. cbn [last_arg]. unfold is_short.
    destruct (Z.eqb_spec (opt o) 0) as [E0 | E0].
    + replace (opt o =? chr "m") with false by (rewrite E0; reflexivity).
      replace (opt o =? chr "M") with false by (rewrite E0; reflexivity).
      destruct (String.eqb "mode" (long_name o));
        [| eapply IH; eassumption].
      destruct (String.eqb "dynamic" (optarg o));
        [eapply IH; [| | exact H]; assumption |].
      destruct (String.eqb "fixed" (optarg o));
        [eapply IH; [| | exact H]; assumption | discriminate H].
    + destruct (Z.eqb_spec (opt o) (chr "p")) as [Ep | Ep].
      { replace (opt o =? chr "m") with false by (rewrite Ep; reflexivity).
        replace (opt o =? chr "M") with false by (rewrite Ep; reflexivity).
        eapply IH; [| | exact H]; assumption. }
      destruct (Z.eqb_spec (opt o) (chr "P")) as [EP | EP].
      { replace (opt o =? chr "m") with false by (rewrite EP; reflexivity).
        replace (opt o =? chr "M") with false by (rewrite EP; reflexivity).
        eapply IH; [| | exact H]; assumption. }
      destruct (Z.eqb_spec (opt o) (chr "m")) as [Em | Em].
      { replace (opt o =? chr "M") with false by (rewrite Em; reflexivity).
        eapply IH; [| | exact H]; [reflexivity | assumption]. }
      destruct (Z.eqb_spec (opt o) (chr "M")) as [EM | EM].
      { eapply IH; [| | exact H]; [assumption | reflexivity]. }
      discriminate H.
Qed.

(** X13.  When [main] enters the dynamic loop, the last [--mode] was
    [dynamic]; the maximum is the last [--max-prob] or 50 and lies in
    [0,100]; the thresholds are the last [--min-rate] and [--max-rate], or
    1000 and 100000, taken as given, with no check of sign, order or size;
    the baseline is the start time with a packet count of 0; and the map has
    not been written. *)
Theorem X13_dynamic_loop_starts_from_the_command_line
  (atol : string -> Z) (rets : list getopt_ret) (ifname : option string)
  (io : startup_io) (t : list event) (ifindex : Z) (v : cli_vars)
  (b : baseline) :
  main atol rets ifname io = (t, inr (dynamic_loop ifindex v b)) ->
  selected_mode rets None = Some "dynamic"%string /\
  max_prob v =
    match last_arg "P" rets None with
    | None => 50 | Some a => atol a end /\
  0 <= max_prob v <= 100 /\
  min_rate v =
    match last_arg "m" rets None with
    | None => 1000 | Some a => atol a end /\
  max_rate v =
    match last_arg "M" rets None with
    | None => 100000 | Some a => atol a end /\
  b = mk_baseline (start_time_ns io) 0 /\
  (forall value, ~ In (ev_map_update value) t).
Proof.
  intros H.
  pose proof (dynamic_loop_validated atol rets ifname io t ifindex v b H)
    as Hrange.
  destruct (main_outcomes atol rets ifname io)
    as [(t' & H' & _) | [(t' & H' & _) | [(t' & H' & _) |
        (v' & name & Hg & Hif & _ & [[Hmd H'] | (_ & _ & _ & H')])]]];
    rewrite H in H'; try discriminate H'.
  injection H' as -> -> -> ->.
  pose proof (getopt_loop_inv atol rets cli_init None None None
                (agrees_init atol)) as Hinv.
  rewrite Hg in Hinv. destruct Hinv as [_ (Hm & _ & Hmp)].
  destruct (getopt_loop_rates atol rets cli_init v' None None []
              eq_refl eq_refl Hg) as [Hlo Hhi].
  destruct (selected_mode rets None) as [a |]; [| rewrite Hmd in Hm;
    discriminate Hm].
  rewrite Hmd in Hm. symmetry in Hm. apply mode_named_dynamic in Hm. subst a.
  repeat split; try assumption; try lia.
  intros value Hin. unfold attached_trace in Hin. cbn in Hin.
  intuition discriminate.
Qed.

Lemma X13_witness :
  let atol := fun a : string =>
    if String.eqb a "7" then 7 else -5 in
  let rets := [Sample.mode_dynamic; Sample.min_rate_arg "-5";
               mk_getopt (chr "M") "max-rate" "7"] in
  let io := Sample.startup 0 0 5 fresh_map true in
  exists t v b,
    main atol rets (Some "eth0"%string) io = (t, inr (dynamic_loop 3 v b)) /\
    min_rate v = -5 /\ max_rate v = 7.
Proof.
  eexists. eexists. eexists. split; [reflexivity |].
  destruct (X13_dynamic_loop_starts_from_the_command_line
              (fun a : string => if String.eqb a "7" then 7 else -5)
              [Sample.mode_dynamic; Sample.min_rate_arg "-5";
               mk_getopt (chr "M") "max-rate" "7"]
              (Some "eth0"%string)
              (Sample.startup 0 0 5 fresh_map true) _ 3 _ _ eq_refl)
    as (_ & _ & _ & Hlo & Hhi & _).
  split; [exact Hlo | exact Hhi].
Defined.

(** X14.  [-1] is the loop's mark for "no [--prob] yet": when the options
    are accepted, the last [--mode] is [fixed] and the last [--prob] has the
    value -1, [main] reports that [--prob] is required, prints the usage
    text and ends with status 1, as if no [--prob] had been given. *)
Theorem X14_prob_minus_one_counts_as_missing
  (atol : string -> Z) (rets : list getopt_ret) (ifname : option string)
  (io : startup_io) (v : cli_vars) (arg : string) :
  getopt_loop atol rets cli_init = ([], inr v) ->
  selected_mode rets None = Some "fixed"%string ->
  last_arg "p" rets None = Some arg ->
  atol arg = -1 ->
  main atol rets ifname io =
    ([ev_stderr msg_prob_required; ev_stderr msg_usage], inl 1).
Proof.
  intros Hg Hsel Hlast Harg.
  pose proof (getopt_loop_inv atol rets cli_init None None None
                (agrees_init atol)) as Hinv.
  rewrite Hg in Hinv. destruct Hinv as [_ (Hm & Hp & _)].
  rewrite Hsel in Hm. cbn in Hm. rewrite Hlast, Harg in Hp.
  unfold main. rewrite Hg, bind_ret_nil. unfold validate.
  rewrite Hm, Hp. reflexivity.
Qed.

Lemma X14_witness :
  let atol := fun _ : string => -1 in
  let rets := [Sample.mode_fixed; Sample.prob_arg "-1"] in
  main atol rets (Some "eth0"%string)
       (Sample.startup 0 0 5 fresh_map true) =
    ([ev_stderr msg_prob_required; ev_stderr msg_usage], inl 1).
Proof.
  apply (X14_prob_minus_one_counts_as_missing (fun _ : string => -1)
           [Sample.mode_fixed; Sample.prob_arg "-1"] (Some "eth0"%string)
           (Sample.startup 0 0 5 fresh_map true)
           (mk_cli (Some MODE_FIXED) (-1) 50 1000 100000) "-1");
    reflexivity.
Defined.

(** X15.  From start-up to verdicts in fixed mode.  Once [main] idles in
    fixed mode over the declared map, a stream of packets is dropped exactly
    where the draw is below the value of the last [--prob], and the
    counters count the stream from zero, whatever they held before the
    write. *)
Theorem X15_fixed_mode_then_traffic
  (atol : string -> Z) (rets : list getopt_ret) (ifname : option string)
  (io : startup_io) (t : list event) (ifindex : Z) (m' : state_map)
  (ps : list Traffic.packet) :
  main atol rets ifname io = (t, inr (fixed_idle ifindex m')) ->
  declared (map_at_write io) ->
  exists arg,
    last_arg "p" rets None = Some arg /\
    0 <= atol arg <= 100 /\
    Traffic.run m' ps =
      (map (fun p => if Traffic.hit (atol arg) p
                     then Filter.TC_ACT_SHOT else Filter.TC_ACT_OK) ps,
       [mk_state (u64 (Z.of_nat (length ps)))
                 (u64 (Traffic.hits (atol arg) ps))
                 (atol arg)]).
Proof.
  intros H Hdecl.
  destruct (fixed_idle_map atol rets ifname io t ifindex m' H)
    as (arg & _ & Hlast & Hrange & _ & ->).
  exists arg. split; [exact Hlast |]. split; [exact Hrange |].
  destruct (declared_entry _ Hdecl) as (s0 & -> & _).
  cbn [insert list_insert key].
  rewrite run_on_declared_map
    by (unfold wf_state, is_u64, is_u32; cbn; lia).
  reflexivity.
Qed.

Lemma X15_witness :
  let rets := [Sample.mode_fixed; Sample.prob_arg "37"] in
  let io := Sample.startup 0 0 5 [mk_state 3 1 0] true in
  declared (map_at_write io) /\
  exists arg,
    last_arg "p" rets None = Some arg /\
    0 <= 37 <= 100 /\
    Traffic.run [mk_state 0 0 37] [(36, 1); (37, 1); (136, 2)] =
      ([Filter.TC_ACT_SHOT; Filter.TC_ACT_OK; Filter.TC_ACT_SHOT],
       [mk_state 3 2 37]).
Proof.
  split; [reflexivity |].
  exact (X15_fixed_mode_then_traffic (fun _ => 37)
           [Sample.mode_fixed; Sample.prob_arg "37"] (Some "eth0"%string)
           (Sample.startup 0 0 5 [mk_state 3 1 0] true) _ 3 _
           [(36, 1); (37, 1); (136, 2)] eq_refl eq_refl).
Defined.

End StartupProperties.

(* ===================================================================== *)
(** ** The dynamic loop, tick after tick *)

Section ControlLoop.
Import Loader.

Lemma to_u32_range (x : Double.double) (n : Z) :
  Double.to_u32 x = Some n -> is_u32 n.
Proof.
  unfold Double.to_u32, is_u32. destruct x as [s | s | | s m e]; try discriminate.
  - intros H. injection H as <-. lia.
  - destruct (Z.leb_spec 0 (Double.trunc s m e)) as [Hlo | Hlo];
      [| discriminate].
    destruct (Z.ltb_spec (Double.trunc s m e) (2 ^ 32)) as [Hhi | Hhi];
      [| discriminate].
    intros H. injection H as <-. lia.
Qed.

Lemma new_prob_range (v : cli_vars) (pps : Double.double) (p : Z) :
  new_prob v pps = Some p -> is_u32 p.
Proof.
  unfold new_prob.
  destruct (Double.gt pps (Double.of_Z (min_rate v))).
  - destruct (Double.ge pps (Double.of_Z (max_rate v))).
    + intros H. injection H as <-. unfold is_u32, u32.
      apply Z.mod_pos_bound. lia.
    + apply to_u32_range.
  - intros H. injection H as <-. unfold is_u32. lia.
Qed.

(** What one iteration can do to the baseline and the map. *)
Lemma dynamic_tick_shape (v : cli_vars) (b b' : baseline)
  (m m' : state_map) (io : tick_io) :
  dynamic_tick v b m io = Some (b', m') ->
  (b' = b /\ m' = m) \/
  exists current_state p,
    m !! key = Some current_state /\
    is_u32 p /\
    b' = mk_baseline (now_ns io) (packet_count current_state) /\
    (m' = m \/ m' = <[key := set_drop_probability p current_state]> m).
Proof.
  unfold dynamic_tick, tick_read, bpf_map_lookup_elem.
  destruct (lookup_ok io).
  - destruct (m !! key) as [cs |] eqn:Hm.
    + unfold tick_compute.
      destruct (new_prob v _) as [p |] eqn:Hp; [| discriminate].
      cbn. intros H. injection H as <- <-.
      right. exists cs, p. split; [reflexivity |].
      split; [exact (new_prob_range _ _ _ Hp) |]. split; [reflexivity |].
      unfold bpf_map_update_elem. destruct (update_ok io); auto.
    + cbn. intros H. injection H as <- <-. left. auto.
  - cbn. intros H. injection H as <- <-. left. auto.
Qed.

(** X16.  However many iterations the loop runs with no packet in between,
    and whatever the lookups and updates return, the loop changes nothing in
    the map but the probability of entry 0: the length, the other entries
    and both counters are as at the start, fields stay within their C
    types, and the baseline's packet count is either untouched or the
    entry's [packet_count]. *)
Theorem X16_control_loop_changes_only_the_probability
  (v : cli_vars) (ios : list tick_io) :
  forall (b b' : baseline) (m m' : state_map),
    control_loop v ios b m = Some (b', m') ->
    length m' = length m /\
    (forall i : nat, i <> key -> m' !! i = m !! i) /\
    packet_count <$> (m' !! key) = packet_count <$> (m !! key) /\
    dropped_count <$> (m' !! key) = dropped_count <$> (m !! key) /\
    (Forall wf_state m -> Forall wf_state m') /\
    (last_packet_count b' = last_packet_count b \/
     Some (last_packet_count b') = packet_count <$> (m !! key)).
Proof.
  induction ios as [| io ios IH]; intros b b' m m' H.
  - cbn in H. injection H as <- <-. repeat split; auto.
  - cbn [control_loop] in H.
    destruct (dynamic_tick v b m io) as [[b1 m1] |] eqn:Htick;
      [| discriminate].
    destruct (IH _ _ _ _ H) as (Hlen & Hother & Hpc & Hdc & Hwf & Hb).
    assert (Hstep :
      length m1 = length m /\
      (forall i : nat, i <> key -> m1 !! i = m !! i) /\
      packet_count <$> (m1 !! key) = packet_count <$> (m !! key) /\
      dropped_count <$> (m1 !! key) = dropped_count <$> (m !! key) /\
      (Forall wf_state m -> Forall wf_state m1) /\
      (last_packet_count b1 = last_packet_count b \/
       Some (last_packet_count b1) = packet_count <$> (m !! key))).
    { destruct (dynamic_tick_shape _ _ _ _ _ _ Htick)
        as [[-> ->] | (cs & p & Hcs & Hp & -> & [-> | ->])].
      - repeat split; auto.
      - repeat split; auto. right. rewrite Hcs. reflexivity.
      - pose proof (lookup_lt_Some _ _ _ Hcs) as Hlt.
        assert (Hnew : <[key := set_drop_probability p cs]> m !! key =
                       Some (set_drop_probability p cs))
          by (apply list_lookup_insert_eq; exact Hlt).
        split; [apply length_insert |].
        split; [intros i Hi; apply list_lookup_insert_ne; congruence |].
        rewrite Hnew, Hcs. split; [reflexivity |]. split; [reflexivity |].
        split; [| right; reflexivity].
        intros Hall. apply Forall_insert; [exact Hall |].
        pose proof (Forall_lookup_1 _ _ _ _ Hall Hcs) as (H1 & H2 & _).
        unfold wf_state. cbn.
        split; [exact H1 |]. split; [exact H2 | exact Hp]. }
    destruct Hstep as (Hlen1 & Hother1 & Hpc1 & Hdc1 & Hwf1 & Hb1).
    split; [congruence |].
    split; [intros i Hi; rewrite Hother, Hother1; auto |].
    split; [congruence |]. split; [congruence |]. split; [auto |].
    destruct Hb as [Hb | Hb]; [rewrite Hb; exact Hb1 |].
    right. rewrite Hb. exact Hpc1.
Qed.

Lemma X16_witness :
  let v := Sample.dynamic 1000 100000 50 in
  let ios := [mk_tick true 1000000000 true; mk_tick false 2000000000 true;
              mk_tick true 3000000000 false] in
  let m := [mk_state 250000 3 0] in
  exists b' m',
    control_loop v ios (mk_baseline 0 0) m = Some (b', m') /\
    packet_count <$> (m' !! key) = Some 250000 /\
    drop_probability <$> (m' !! key) = Some 50.
Proof.
  eexists. eexists. split; [reflexivity |].
  split; [| reflexivity].
  exact (proj1 (proj2 (proj2
    (X16_control_loop_changes_only_the_probability
       (Sample.dynamic 1000 100000 50)
       [mk_tick true 1000000000 true; mk_tick false 2000000000 true;
        mk_tick true 3000000000 false]
       (mk_baseline 0 0) _ [mk_state 250000 3 0] _ eq_refl)))).
Defined.

Lemma pps_idle (time_diff_ns : Z) :
  is_u64 time_diff_ns ->
  pps_of 0 time_diff_ns = S754_nan \/ pps_of 0 time_diff_ns = S754_zero false.
Proof.
  unfold is_u64. intros Ht.
  destruct (Z.eq_dec time_diff_ns 0) as [-> | Hne]; [left; reflexivity |].
  right. unfold pps_of.
  destruct (of_Z_shape time_diff_ns) as (m & e & -> & _); [lia | exact Hne |].
  replace (time_diff_ns <? 0) with false by (symmetry; apply Z.ltb_ge; lia).
  reflexivity.
Qed.

Lemma new_prob_of_no_rate (v : cli_vars) (pps : Double.double) :
  pps = S754_nan \/ pps = S754_zero false ->
  is_long (min_rate v) ->
  0 <= min_rate v ->
  new_prob v pps = Some 0.
Proof.
  intros Hpps Hlong Hmin. unfold new_prob, Double.gt, SFltb.
  assert (Hlo : Double.of_Z (min_rate v) = S754_zero false \/
                exists m e, Double.of_Z (min_rate v) = S754_finite false m e).
  { destruct (Z.eq_dec (min_rate v) 0) as [-> | Hne]; [left; reflexivity |].
    right. unfold is_long in Hlong.
    destruct (of_Z_shape (min_rate v)) as (m & e & H & _); [lia | exact Hne |].
    replace (min_rate v <? 0) with false in H
      by (symmetry; apply Z.ltb_ge; lia).
    eauto. }
  destruct Hpps as [-> | ->]; destruct Hlo as [-> | (m & e & ->)];
    reflexivity.
Qed.

(** X17.  An iteration that finds the packet count where the previous one
    left it writes probability 0, for every non-negative [min_rate] and
    whatever the elapsed time, [max_rate] and [max_prob]: an idle interface
    is never throttled. *)
Theorem X17_idle_interface_gets_probability_0
  (v : cli_vars) (b : baseline) (m : state_map) (current_state : state)
  (io : tick_io) :
  is_long (min_rate v) ->
  0 <= min_rate v ->
  bpf_map_lookup_elem (lookup_ok io) m key = Some current_state ->
  u64 (packet_count current_state - last_packet_count b) = 0 ->
  dynamic_tick v b m io =
    Some (mk_baseline (now_ns io) (packet_count current_state),
          bpf_map_update_elem (update_ok io) m key
            (set_drop_probability 0 current_state)).
Proof.
  intros Hlong Hmin Hlook Hidle.
  unfold dynamic_tick, tick_read. rewrite Hlook.
  unfold tick_compute. rewrite Hidle.
  rewrite (new_prob_of_no_rate v _ (pps_idle _ (u64_range _)) Hlong Hmin).
  reflexivity.
Qed.

Lemma X17_witness :
  let v := Sample.dynamic 0 5 100 in
  let b := mk_baseline 1000000000 77 in
  let io := mk_tick true 2000000000 true in
  dynamic_tick v b [mk_state 77 9 100] io =
    Some (mk_baseline 2000000000 77, [mk_state 77 9 0]).
Proof.
  apply (X17_idle_interface_gets_probability_0 (Sample.dynamic 0 5 100)
           (mk_baseline 1000000000 77) [mk_state 77 9 100]
           (mk_state 77 9 100) (mk_tick true 2000000000 true)).
  - unfold is_long. cbn. lia.
  - cbn. lia.
  - reflexivity.
  - reflexivity.
Defined.

(** X18.  The controller measures what the classifier counted.  If the
    baseline holds the entry's [packet_count] and a stream of fewer than
    [2^64] packets then passes, the next lookup computes its rate from
    exactly the number of packets of the stream, also when the counter has
    wrapped around in between, and the new baseline is the new count. *)
Theorem X18_rate_is_computed_from_the_packets_seen
  (v : cli_vars) (b : baseline) (s : state) (ps : list Traffic.packet)
  (io : tick_io) :
  wf_state s ->
  last_packet_count b = packet_count s ->
  Z.of_nat (length ps) < 2 ^ 64 ->
  lookup_ok io = true ->
  let n := Z.of_nat (length ps) in
  let pps := pps_of n (u64 (now_ns io - last_time_ns b)) in
  tick_read v b (snd (Traffic.run [s] ps)) io =
    match new_prob v pps with
    | Some p =>
        Some (mk_baseline (now_ns io) (u64 (packet_count s + n)),
              Some (mk_state
                      (u64 (packet_count s + n))
                      (u64 (dropped_count s +
                            Traffic.hits (drop_probability s) ps))
                      p))
    | None => None
    end.
Proof.
  intros Hwf Hb Hn Hok n pps.
  rewrite (run_on_declared_map s ps Hwf). cbn [snd].
  unfold tick_read, bpf_map_lookup_elem. rewrite Hok.
  cbn [lookup list_lookup key]. unfold tick_compute.
  cbn [packet_count dropped_count drop_probability]. rewrite Hb.
  fold n.
  replace (u64 (u64 (packet_count s + n) - packet_count s)) with n.
  - fold pps. destruct (new_prob v pps); reflexivity.
  - destruct Hwf as (Hpc & _). rewrite <- (u64_id (packet_count s) Hpc) at 2.
    rewrite u64_sub. replace (packet_count s + n - packet_count s) with n
      by lia.
    symmetry. apply Z.mod_small. subst n. lia.
Qed.

Lemma X18_witness :
  let v := Sample.dynamic 1 3 100 in
  let s := mk_state 18446744073709551615 0 0 in
  let b := mk_baseline 0 18446744073709551615 in
  let io := mk_tick true 1000000000 true in
  tick_read v b (snd (Traffic.run [s] [(5, 1); (6, 2)])) io =
    Some (mk_baseline 1000000000 1, Some (mk_state 1 0 50)).
Proof.
  apply (X18_rate_is_computed_from_the_packets_seen
           (Sample.dynamic 1 3 100)
           (mk_baseline 0 18446744073709551615)
           (mk_state 18446744073709551615 0 0) [(5, 1); (6, 2)]
           (mk_tick true 1000000000 true)).
  - unfold wf_state, is_u64, is_u32. cbn. lia.
  - reflexivity.
  - cbn. lia.
  - reflexivity.
Defined.

(** X19.  Packets classified between the lookup and the update of one
    iteration are lost to the counters: after a successful update the entry
    is the record computed at the lookup, with the counters read then,
    however many packets passed in between. *)
Theorem X19_update_overwrites_packets_counted_since_the_lookup
  (v : cli_vars) (b b' : baseline) (s value : state)
  (ps : list Traffic.packet) (io : tick_io) :
  wf_state s ->
  tick_read v b [s] io = Some (b', Some value) ->
  update_ok io = true ->
  tick_write (snd (Traffic.run [s] ps)) io (Some value) = [value] /\
  packet_count value = packet_count s /\
  dropped_count value = dropped_count s /\
  last_packet_count b' = packet_count s.
Proof.
  intros Hwf Hread Hup.
  rewrite (run_on_declared_map s ps Hwf). cbn [snd].
  unfold tick_write, bpf_map_update_elem. rewrite Hup.
  split; [reflexivity |].
  unfold tick_read, bpf_map_lookup_elem in Hread.
  destruct (lookup_ok io); [| discriminate Hread].
  cbn [lookup list_lookup key] in Hread. unfold tick_compute in Hread.
  destruct (new_prob v _) as [p |]; [| discriminate Hread].
  cbn in Hread. injection Hread as <- <-. repeat split.
Qed.

Lemma X19_witness :
  let v := Sample.dynamic 1000 100000 50 in
  let s := mk_state 10 2 0 in
  let io := mk_tick true 1000000000 true in
  tick_write (snd (Traffic.run [s] [(99, 1); (98, 2); (97, 1)])) io
             (Some (mk_state 10 2 0)) = [mk_state 10 2 0].
Proof.
  apply (X19_update_overwrites_packets_counted_since_the_lookup
           (Sample.dynamic 1000 100000 50) (mk_baseline 0 0)
           (mk_baseline 1000000000 10) (mk_state 10 2 0) (mk_state 10 2 0)
           [(99, 1); (98, 2); (97, 1)] (mk_tick true 1000000000 true)).
  - unfold wf_state, is_u64, is_u32. cbn. lia.
  - reflexivity.
  - reflexivity.
Defined.

(** X20.  The return of [bpf_map_update_elem] in the loop is ignored: an
    iteration whose update fails ends like one whose update succeeds, with
    the same new baseline, except that the map is left as it was.  The
    packets it measured are not measured again. *)
Theorem X20_failed_update_is_silent
  (v : cli_vars) (b : baseline) (m : state_map) (ok : bool) (now : Z) :
  fst <$> dynamic_tick v b m (mk_tick ok now false) =
  fst <$> dynamic_tick v b m (mk_tick ok now true) /\
  (forall b' m',
     dynamic_tick v b m (mk_tick ok now false) = Some (b', m') -> m' = m).
Proof.
  unfold dynamic_tick, tick_read, bpf_map_lookup_elem. cbn [lookup_ok now_ns].
  destruct ok; [destruct (m !! key) as [cs |] |].
  - destruct (tick_compute v b cs now) as [b1 [value |]]; cbn;
      split; try reflexivity; intros b' m' H; try discriminate H.
    injection H as _ <-. reflexivity.
  - cbn. split; [reflexivity |]. intros b' m' H. injection H as _ <-.
    reflexivity.
  - cbn. split; [reflexivity |]. intros b' m' H. injection H as _ <-.
    reflexivity.
Qed.

(** X21.  The probability an iteration publishes is the one the classifier
    applies next.  After an iteration over the declared map whose lookup and
    update succeed, the entry holds the probability computed from the rate
    measured, and a following stream is dropped exactly where the draw is
    below it, the counters going on from where they were. *)
Theorem X21_published_probability_governs_the_next_packets
  (v : cli_vars) (b b' : baseline) (s : state) (m' : state_map)
  (now : Z) (ps : list Traffic.packet) :
  wf_state s ->
  dynamic_tick v b [s] (mk_tick true now true) = Some (b', m') ->
  exists p,
    new_prob v (pps_of (u64 (packet_count s - last_packet_count b))
                       (u64 (now - last_time_ns b))) = Some p /\
    is_u32 p /\
    m' = [mk_state (packet_count s) (dropped_count s) p] /\
    Traffic.run m' ps =
      (map (fun q => if Traffic.hit p q
                     then Filter.TC_ACT_SHOT else Filter.TC_ACT_OK) ps,
       [mk_state (u64 (packet_count s + Z.of_nat (length ps)))
                 (u64 (dropped_count s + Traffic.hits p ps)) p]).
Proof.
  intros (Hpc & Hdc & Hpr) H.
  unfold dynamic_tick, tick_read, bpf_map_lookup_elem in H.
  cbn [lookup_ok now_ns update_ok lookup list_lookup key] in H.
  unfold tick_compute in H.
  destruct (new_prob v _) as [p |] eqn:Hp; [| discriminate H].
  cbn in H. injection H as _ <-.
  exists p. split; [reflexivity |].
  pose proof (new_prob_range _ _ _ Hp) as Hrange.
  split; [exact Hrange |]. split; [reflexivity |].
  unfold set_drop_probability.
  rewrite run_on_declared_map by (unfold wf_state; cbn; auto).
  reflexivity.
Qed.

Lemma X21_witness :
  let v := Sample.dynamic 1000 100000 50 in
  let s := mk_state 50500 0 0 in
  wf_state s /\
  exists p,
    is_u32 p /\
    Traffic.run [mk_state 50500 0 25] [(24, 1); (25, 2)] =
      (map (fun q => if Traffic.hit p q
                     then Filter.TC_ACT_SHOT else Filter.TC_ACT_OK)
           [(24, 1); (25, 2)],
       [mk_state 50502 1 25]).
Proof.
  assert (Hwf : wf_state (mk_state 50500 0 0))
    by (unfold wf_state, is_u64, is_u32; cbn; lia).
  split; [exact Hwf |].
  destruct (X21_published_probability_governs_the_next_packets
              (Sample.dynamic 1000 100000 50) (mk_baseline 0 0)
              (mk_baseline 1000000000 50500) (mk_state 50500 0 0)
              [mk_state 50500 0 25] 1000000000 [(24, 1); (25, 2)]
              Hwf eq_refl) as (p & Hp & Hr & Hm & Hrun).
  injection Hm as <-.
  exists 25. split; [exact Hr | exact Hrun].
Defined.

End ControlLoop.
